(** * Long-running-operation supervisor over the SQLite session store

    A shallow embedding of [memory/sql_session.py]: the [SQLiteSession]
    key/value store (JSON payloads in a table keyed by [key]) and the
    operation manager that the same file carries ([_simulate_task],
    [start_operation], [pause_operation], [resume_operation],
    [cancel_operation], [list_operations]).

    Part I is the model:
    - [Json]: the Python values that reach [json.dumps] and the JSON
      documents that come back from [json.loads];
    - [SQLiteSession]: [write], [read], [all] over the table;
    - [Metrics]: the counters bumped by [inc_counter];
    - [Manager]: the supervisor calls, the runner thread as a machine
      that moves from one session operation to the next, the interleavings
      of runners and callers, and what holds of every world they reach;
    - [Observations]: counters, tallies over the registry and the metadata
      a thread holds between its read and its write;
    - [InMemorySession]: the dict-backed store of
      [memory/session_memory.py], and [Calls]: sequences of writes to
      either store;
    - [Agent]: [summarize_incident] of [agents/adk_ops_agent.py].

    Part II is the properties: the JSON round trips, the store, the keys,
    the invariant of the reachable worlds, and the lifecycle of an
    operation, with concrete runs of each; then a runner left to itself,
    the absence of exceptions, the listing, the counters, the two stores
    side by side, and the summaries. *)

From Stdlib Require Import ZArith Ascii String.
From stdpp Require Import gmap strings list fin_maps.

Set Default Proof Using "Type".

(** * Part I: the model *)

(** ** Python values and JSON documents *)

Module Json.

(** The values a caller can hand to [SQLiteSession.write] ([value: Any]).
    Dicts are keyed by strings, as every dict of this program is and as the
    annotation [Dict[str, Any]] of the caller's metadata says. [PObj repr]
    is any object the JSON encoder does not know (a set, a datetime, ...):
    all the encoder ever asks of it is [str(obj)], which is [repr].
    Floats are left out. *)
#[warnings="-register-all"]
Inductive pyval : Type :=
  | PNone
  | PBool (b : bool)
  | PInt (z : Z)
  | PStr (s : string)
  | PList (l : list pyval)
  | PTuple (l : list pyval)
  | PDict (d : gmap string pyval)
  | PObj (repr : string).

(** A JSON document, the content of the [value] column once parsed. *)
#[warnings="-register-all"]
Inductive jval : Type :=
  | JNull
  | JBool (b : bool)
  | JInt (z : Z)
  | JStr (s : string)
  | JArr (l : list jval)
  | JObj (d : gmap string jval).

(** Exceptions the modelled code can raise. *)
Inductive exn : Type :=
  | TypeError
  | AttributeError.

(** [json.dumps(value, default=str)]: lists and tuples both become arrays,
    and whatever the encoder does not know goes through [str]. *)
Fixpoint json_dumps (v : pyval) : jval :=
  match v with
  | PNone => JNull
  | PBool b => JBool b
  | PInt z => JInt z
  | PStr s => JStr s
  | PList l => JArr (map json_dumps l)
  | PTuple l => JArr (map json_dumps l)
  | PDict d => JObj (json_dumps <$> d)
  | PObj repr => JStr repr
  end.

(** [json.loads]: arrays come back as lists, objects as dicts. *)
Fixpoint json_loads (j : jval) : pyval :=
  match j with
  | JNull => PNone
  | JBool b => PBool b
  | JInt z => PInt z
  | JStr s => PStr s
  | JArr l => PList (map json_loads l)
  | JObj d => PDict (json_loads <$> d)
  end.

(** The values JSON has a shape for: no tuple and no foreign object
    anywhere inside. *)
Fixpoint json_native (v : pyval) : bool :=
  match v with
  | PNone | PBool _ | PInt _ | PStr _ => true
  | PList l => forallb json_native l
  | PTuple _ => false
  | PDict d => map_fold (λ _ x acc, json_native x && acc) true d
  | PObj _ => false
  end.

(** Python truth value, as tested by [if not meta] and [if metadata]. *)
Definition truthy (v : pyval) : bool :=
  match v with
  | PNone => false
  | PBool b => b
  | PInt z => negb (Z.eqb z 0)
  | PStr s => negb (String.eqb s "")
  | PList l | PTuple l => negb (bool_decide (l = []))
  | PDict d => negb (bool_decide (d = ∅))
  | PObj _ => true
  end.

(** [v.get(k)]: only dicts have the method. *)
Definition py_get (v : pyval) (k : string) : exn + pyval :=
  match v with
  | PDict d => inr (default PNone (d !! k))
  | _ => inl AttributeError
  end.

(** [v[k] = x] with a string [k]: only dicts take it. *)
Definition py_setitem (v : pyval) (k : string) (x : pyval) : exn + pyval :=
  match v with
  | PDict d => inr (PDict (<[k := x]> d))
  | _ => inl TypeError
  end.

(** [v == "s"] for a string literal. *)
Definition py_eq_str (v : pyval) (s : string) : bool :=
  match v with
  | PStr s' => String.eqb s' s
  | _ => false
  end.

(** Sizes, to recurse below a dict. *)
Fixpoint pysize (v : pyval) : nat :=
  match v with
  | PList l | PTuple l => S (foldr (λ x acc, pysize x + acc) 0 l)
  | PDict d => S (map_fold (λ _ x acc, pysize x + acc) 0 d)
  | _ => 1
  end.

Fixpoint jsize (j : jval) : nat :=
  match j with
  | JArr l => S (foldr (λ x acc, jsize x + acc) 0 l)
  | JObj d => S (map_fold (λ _ x acc, jsize x + acc) 0 d)
  | _ => 1
  end.

End Json.

(** ** The SQLite-backed session store *)

Module SQLiteSession.
Import Json.

(** The [value] column is TEXT. [write] only ever stores the output of
    [json.dumps], which parses; text that does not parse can only have been
    put there by another writer, and [read] hands it back raw. *)
Inductive payload : Type :=
  | Doc (j : jval)
  | Malformed (text : string).

(** A row of [session(key TEXT PRIMARY KEY, value TEXT, updated_at INTEGER)],
    without its key. *)
Record row : Type := Row { value : payload; updated_at : Z }.

(** [write]: upsert of the dumped value, stamped with the database's
    [strftime('%s','now')]. *)
Definition write (now : Z) (key : string) (v : pyval)
    (t : gmap string row) : gmap string row :=
  let payload := Doc (json_dumps v) in
  <[key := Row payload now]> t.

(** [json.loads(row[0])], falling back to the raw text. *)
Definition load (p : payload) : pyval :=
  match p with
  | Doc j => json_loads j
  | Malformed text => PStr text
  end.

(** [read]: the default when no row has the key. *)
Definition read (key : string) (default : pyval)
    (t : gmap string row) : pyval :=
  match t !! key with
  | None => default
  | Some r => load (value r)
  end.

(** [all]: every key with its loaded value. *)
Definition all (t : gmap string row) : gmap string pyval :=
  (λ r, load (value r)) <$> t.

End SQLiteSession.

(** ** Counters *)

Module Metrics.

(** [Metrics.__init__] registers four counters, at zero. *)
Definition init : gmap string nat :=
  {[ "requests_total" := 0; "worker_tasks_total" := 0;
     "worker_heartbeat_total" := 0; "worker_errors_total" := 0 ]}.

(** [inc_counter(name)]: the counter is created at zero when it is not
    there yet, then bumped by one. *)
Definition inc_counter (name : string) (m : gmap string nat) : gmap string nat :=
  <[name := S (default 0 (m !! name))]> m.

End Metrics.

(** ** The operation manager *)

Module Manager.
Import Json.
Export SQLiteSession.

(** *** String operations of [list_operations] *)

(** [k.startswith(p)] *)
Definition startswith (p k : string) : bool := String.prefix p k.

(** [k.endswith(suffix)] *)
Fixpoint endswith (suffix k : string) : bool :=
  String.eqb suffix k
  || match k with
     | EmptyString => false
     | String _ k' => endswith suffix k'
     end.

(** [k.count(c)] for a one-character [c] *)
Fixpoint count (c : ascii) (k : string) : nat :=
  match k with
  | EmptyString => 0
  | String a k' => (if Ascii.eqb a c then 1 else 0) + count c k'
  end.

(** [k.split(c)] for a one-character [c]: one field more than there are
    separators. *)
Fixpoint split (c : ascii) (k : string) : list string :=
  match k with
  | EmptyString => [EmptyString]
  | String a k' =>
      if Ascii.eqb a c then EmptyString :: split c k'
      else match split c k' with
           | field :: fields => String a field :: fields
           | [] => [String a EmptyString]
           end
  end.

(** *** Keys of an operation's three records *)

Definition meta_key (op_id : string) : string := "op:" +:+ op_id +:+ ":meta".
Definition progress_key (op_id : string) : string :=
  "op:" +:+ op_id +:+ ":progress".
Definition result_key (op_id : string) : string :=
  "op:" +:+ op_id +:+ ":result".

(** The keys that belong to an operation. *)
Definition owns (op_id k : string) : Prop :=
  k = meta_key op_id ∨ k = progress_key op_id ∨ k = result_key op_id.

(** [str(uuid.uuid4())]: lowercase hexadecimal digits in groups of
    8-4-4-4-12. The draw itself is an input of the model: the [uuid4]
    argument of [start_operation]. *)
Definition is_hex (c : ascii) : bool :=
  let n := nat_of_ascii c in
  (Nat.leb 48 n && Nat.leb n 57) || (Nat.leb 97 n && Nat.leb n 102).

Fixpoint matches_pattern (pattern s : string) : bool :=
  match pattern, s with
  | EmptyString, EmptyString => true
  | String p pattern', String c s' =>
      (if Ascii.eqb p "-" then Ascii.eqb c "-" else is_hex c)
      && matches_pattern pattern' s'
  | _, _ => false
  end.

Definition uuid_shaped (s : string) : bool :=
  matches_pattern "xxxxxxxx-xxxx-xxxx-xxxx-xxxxxxxxxxxx" s.

(** *** The runner thread

    A thread running [_simulate_task(op_id, duration)] is followed from one
    session operation to the next: each [point] is the place in the function
    where the thread stands before its next [session.read] or
    [session.write]. *)
Inductive point : Type :=
  | AtBoundary            (* top of the [for] body, before the read of line 97 *)
  | Paused                (* in the [while True] loop, before its sleep and read *)
  | Cancelling            (* saw "cancelled" in the pause loop, before the Result write *)
  | Working               (* past the pause test, before the sleep and Progress write *)
  | Finishing             (* loop exhausted, before the Result write *)
  | Finalising            (* Result written, before the final read of the metadata *)
  | Marking (meta : pyval) (* metadata read, before it is written back as finished *)
  | Returned              (* left through the [return] of the pause loop *)
  | Done                  (* ran off the end of the function *)
  | Crashed (e : exn).    (* died of an uncaught exception *)

(** The locals of the thread: the argument [duration], the loop variable
    [i] (the number of iterations run, once the loop is over), and [st],
    the metadata as last read in the loop ([PNone] before the first read). *)
Record runner : Type :=
  Runner { r_duration : Z; r_i : Z; r_st : pyval; r_at : point }.

(** [steps = max(1, duration)] *)
Definition steps (r : runner) : Z := Z.max 1 (r_duration r).

Definition alive (p : point) : bool :=
  match p with
  | Returned | Done | Crashed _ => false
  | _ => true
  end.

(** *** Supervisor calls in flight

    [pause_operation], [resume_operation] and [cancel_operation] each read
    the metadata and then write it back; other threads can run between the
    two. A call that has read and not yet written is in flight, holding the
    metadata it read. *)
Inductive control : Type := Pause | Resume | Cancel.

Record call : Type :=
  Call { c_kind : control; c_op_id : string; c_meta : pyval }.

Definition control_status (c : control) : string :=
  match c with
  | Pause => "paused"
  | Resume => "running"
  | Cancel => "cancelled"
  end.

Definition control_counter (c : control) : string :=
  match c with
  | Pause => "ops_paused_total"
  | Resume => "ops_resumed_total"
  | Cancel => "ops_cancel_requested_total"
  end.

(** *** The process state

    The module-level [session] and [metrics], the clock behind
    [time.time()] and SQLite's ['now'], the [TASKS] registry with the state
    of each thread it holds, and the calls in flight. *)
Record world : Type := World {
  session : gmap string row;
  metrics : gmap string nat;
  clock : Z;
  TASKS : gmap string runner;
  in_flight : list call
}.

Definition set_session (f : gmap string row → gmap string row) (w : world) : world :=
  World (f (session w)) (metrics w) (clock w) (TASKS w) (in_flight w).
Definition set_metrics (f : gmap string nat → gmap string nat) (w : world) : world :=
  World (session w) (f (metrics w)) (clock w) (TASKS w) (in_flight w).
Definition set_clock (f : Z → Z) (w : world) : world :=
  World (session w) (metrics w) (f (clock w)) (TASKS w) (in_flight w).
Definition set_TASKS (f : gmap string runner → gmap string runner) (w : world) : world :=
  World (session w) (metrics w) (clock w) (f (TASKS w)) (in_flight w).
Definition set_in_flight (f : list call → list call) (w : world) : world :=
  World (session w) (metrics w) (clock w) (TASKS w) (f (in_flight w)).

(** A fresh process on a fresh database. *)
Definition init : world := World ∅ Metrics.init 0 ∅ [].

(** *** Code that runs in a world and may raise *)

Definition M (A : Type) : Type := world → (exn + A) * world.

#[global] Instance M_ret : MRet M := λ A a w, (inr a, w).
#[global] Instance M_bind : MBind M := λ A B k m w,
  match m w with
  | (inr a, w') => k a w'
  | (inl e, w') => (inl e, w')
  end.

(** An operation on a value that either raises or returns. *)
Definition lift {A} (r : exn + A) : M A := λ w, (r, w).

(** [session.read(key, default)] *)
Definition session_read (key : string) (default : pyval) : M pyval :=
  λ w, (inr (read key default (session w)), w).

(** [session.write(key, value)] *)
Definition session_write (key : string) (v : pyval) : M unit :=
  λ w, (inr (), set_session (write (clock w) key v) w).

(** [metrics.inc_counter(name)] *)
Definition metrics_inc_counter (name : string) : M unit :=
  λ w, (inr (), set_metrics (Metrics.inc_counter name) w).

(** [int(time.time())] *)
Definition time_time : M Z := λ w, (inr (clock w), w).

(** [TASKS[op_id] = {"thread": t}; t.start()]: the new thread stands at
    the top of the first iteration ([steps] is at least 1). *)
Definition thread_start (op_id : string) (duration : Z) : M unit :=
  λ w, (inr (), set_TASKS (insert op_id (Runner duration 0 PNone AtBoundary)) w).

(** *** [start_operation(duration, metadata)]

    [metadata] is [None] (the default) or a dict; the dict's entries are
    merged over the three fields the function sets itself. *)
Definition start_operation (uuid4 : string) (duration : Z)
    (metadata : option (gmap string pyval)) : M string :=
  let op_id := uuid4 in
  now ← time_time;
  let meta : gmap string pyval :=
    {[ "status" := PStr "running"; "duration" := PInt duration;
       "created_at" := PInt now ]} in
  let meta :=
    match metadata with
    | Some md => if truthy (PDict md) then md ∪ meta else meta
    | None => meta
    end in
  session_write (meta_key op_id) (PDict meta);;
  session_write (progress_key op_id)
    (PDict {[ "step" := PInt 0; "total" := PInt duration ]});;
  thread_start op_id duration;;
  metrics_inc_counter "ops_started_total";;
  mret op_id.

(** *** [pause_operation], [resume_operation], [cancel_operation] *)

Definition pause_operation (op_id : string) : M bool :=
  meta ← session_read (meta_key op_id) PNone;
  if negb (truthy meta) then mret false else
  meta ← lift (py_setitem meta "status" (PStr "paused"));
  session_write (meta_key op_id) meta;;
  metrics_inc_counter "ops_paused_total";;
  mret true.

Definition resume_operation (op_id : string) : M bool :=
  meta ← session_read (meta_key op_id) PNone;
  if negb (truthy meta) then mret false else
  meta ← lift (py_setitem meta "status" (PStr "running"));
  session_write (meta_key op_id) meta;;
  metrics_inc_counter "ops_resumed_total";;
  mret true.

Definition cancel_operation (op_id : string) : M bool :=
  meta ← session_read (meta_key op_id) PNone;
  if negb (truthy meta) then mret false else
  meta ← lift (py_setitem meta "status" (PStr "cancelled"));
  session_write (meta_key op_id) meta;;
  metrics_inc_counter "ops_cancel_requested_total";;
  mret true.

(** The same three functions, dispatched on the kind of call. *)
Definition control_operation (c : control) : string → M bool :=
  match c with
  | Pause => pause_operation
  | Resume => resume_operation
  | Cancel => cancel_operation
  end.

(** The two halves of a call, for the interleaving semantics: up to the
    test of [if not meta], and from there to the [return True]. *)
Definition enter (c : control) (op_id : string) (w : world) : world :=
  let meta := read (meta_key op_id) PNone (session w) in
  if negb (truthy meta) then w
  else set_in_flight (λ l, l ++ [Call c op_id meta]) w.

Definition leave (cl : call) : M bool :=
  meta ← lift (py_setitem (c_meta cl) "status"
                 (PStr (control_status (c_kind cl))));
  session_write (meta_key (c_op_id cl)) meta;;
  metrics_inc_counter (control_counter (c_kind cl));;
  mret true.

(** *** [_simulate_task(op_id, duration)], one session operation at a time

    From the point where the thread stands, run up to and including its
    next session operation and the local code behind it, and return the
    thread's new locals. The counter bumped right after a write is part of
    the same move. *)
Definition _simulate_task (op_id : string) (r : runner) : M runner :=
  match r_at r with
  | AtBoundary =>
      st ← session_read (meta_key op_id) (PDict ∅);
      status ← lift (py_get st "status");
      if py_eq_str status "paused"
      then mret (Runner (r_duration r) (r_i r) st Paused)
      else mret (Runner (r_duration r) (r_i r) st Working)
  | Paused =>
      st ← session_read (meta_key op_id) (PDict ∅);
      status ← lift (py_get st "status");
      if py_eq_str status "running"
      then mret (Runner (r_duration r) (r_i r) st Working)
      else if py_eq_str status "cancelled"
      then mret (Runner (r_duration r) (r_i r) st Cancelling)
      else mret (Runner (r_duration r) (r_i r) st Paused)
  | Cancelling =>
      session_write (result_key op_id)
        (PDict {[ "status" := PStr "cancelled" ]});;
      metrics_inc_counter "ops_cancelled_total";;
      mret (Runner (r_duration r) (r_i r) (r_st r) Returned)
  | Working =>
      session_write (progress_key op_id)
        (PDict {[ "step" := PInt (r_i r + 1); "total" := PInt (steps r) ]});;
      metrics_inc_counter "ops_heartbeat_total";;
      if (r_i r + 1 <? steps r)%Z
      then mret (Runner (r_duration r) (r_i r + 1) (r_st r) AtBoundary)
      else mret (Runner (r_duration r) (r_i r + 1) (r_st r) Finishing)
  | Finishing =>
      now ← time_time;
      session_write (result_key op_id)
        (PDict {[ "status" := PStr "finished"; "completed_at" := PInt now ]});;
      mret (Runner (r_duration r) (r_i r) (r_st r) Finalising)
  | Finalising =>
      meta ← session_read (meta_key op_id) (PDict ∅);
      mret (Runner (r_duration r) (r_i r) (r_st r) (Marking meta))
  | Marking meta =>
      meta ← lift (py_setitem meta "status" (PStr "finished"));
      session_write (meta_key op_id) meta;;
      metrics_inc_counter "ops_finished_total";;
      mret (Runner (r_duration r) (r_i r) (r_st r) Done)
  | Returned | Done | Crashed _ => mret r
  end.

(** *** [list_operations()] *)

Definition is_meta_key (k : string) : bool :=
  startswith "op:" k && Nat.leb 2 (count ":" k) && endswith ":meta" k.

(** The loop body, folded over [session.all()]. The guard of [is_meta_key]
    makes the split at least three fields long, so index 1 exists. *)
Definition list_operations (w : world) : gmap string (gmap string pyval) :=
  let all_keys := all (session w) in
  map_fold
    (λ k v ops,
       if is_meta_key k then
         let op_id := nth 1 (split ":" k) EmptyString in
         let entry := default ∅ (ops !! op_id) in
         let entry := <["meta" := v]> entry in
         let entry :=
           <["progress" := read (progress_key op_id) PNone (session w)]> entry in
         let entry :=
           <["result" := read (result_key op_id) PNone (session w)]> entry in
         <[op_id := entry]> ops
       else ops)
    ∅ all_keys.

(** *** Interleavings

    What can happen next in the process: time passes; a caller starts an
    operation (both writes and the thread start, under an id no other
    thread knows yet); a caller enters a control call (its read); a call in
    flight completes (its write); a runner thread makes its next move. *)
Inductive action : Type :=
  | Tick (dt : Z)
  | Start (uuid4 : string) (duration : Z) (metadata : option (gmap string pyval))
  | Enter (c : control) (op_id : string)
  | Leave (n : nat)
  | Run (op_id : string).

(** A move of the thread of [op_id]; an exception that is not caught ends
    the thread. *)
Definition run (op_id : string) (r : runner) (w : world) : world :=
  match _simulate_task op_id r w with
  | (inr r', w') => set_TASKS (insert op_id r') w'
  | (inl e, w') =>
      set_TASKS
        (insert op_id (Runner (r_duration r) (r_i r) (r_st r) (Crashed e))) w'
  end.

Definition step (a : action) (w : world) : option world :=
  match a with
  | Tick dt =>
      if (0 <=? dt)%Z then Some (set_clock (Z.add dt) w) else None
  | Start uuid4 duration metadata =>
      if uuid_shaped uuid4 && bool_decide (TASKS w !! uuid4 = None)
      then Some (start_operation uuid4 duration metadata w).2
      else None
  | Enter c op_id => Some (enter c op_id w)
  | Leave n =>
      match in_flight w !! n with
      | Some cl => Some (set_in_flight (delete n) (leave cl w).2)
      | None => None
      end
  | Run op_id =>
      match TASKS w !! op_id with
      | Some r => if alive (r_at r) then Some (run op_id r w) else None
      | None => None
      end
  end.

Fixpoint exec (tr : list action) (w : world) : option world :=
  match tr with
  | [] => Some w
  | a :: tr' =>
      match step a w with
      | Some w' => exec tr' w'
      | None => None
      end
  end.

Definition reachable (w : world) : Prop := ∃ tr, exec tr init = Some w.

(** *** Observations on a world *)

(** The stored record under a key, when there is one. *)
Definition record (key : string) (w : world) : option pyval :=
  (λ r, load (value r)) <$> session w !! key.

(** A field of a stored dict record. *)
Definition field (key name : string) (w : world) : option pyval :=
  match record key w with
  | Some (PDict d) => d !! name
  | _ => None
  end.

Definition status (op_id : string) (w : world) : option pyval :=
  field (meta_key op_id) "status" w.

(** The Progress record as the pair of its [step] and [total]. *)
Definition progress (op_id : string) (w : world) : option (Z * Z) :=
  match field (progress_key op_id) "step" w,
        field (progress_key op_id) "total" w with
  | Some (PInt k), Some (PInt t) => Some (k, t)
  | _, _ => None
  end.

(** The status a thread saw at its last read in the loop. *)
Definition saw (r : runner) (s : string) : bool :=
  match py_get (r_st r) "status" with
  | inr v => py_eq_str v s
  | inl _ => false
  end.

(** The points behind a Result write. *)
Definition result_written (p : point) : bool :=
  match p with
  | Finalising | Marking _ | Done | Returned => true
  | _ => false
  end.

(** *** What holds of every world the process can reach *)

(** A metadata value: a dict with a status. *)
Definition status_dict (v : pyval) : Prop :=
  ∃ d, v = PDict d ∧ is_Some (d !! "status").

Definition meta_row_ok (r : row) : Prop :=
  ∃ dj, value r = Doc (JObj dj) ∧ is_Some (dj !! "status").

(** The loop variable against the point of the thread. *)
Definition counter_ok (r : runner) : Prop :=
  match r_at r with
  | AtBoundary | Paused | Cancelling | Working | Returned =>
      (0 ≤ r_i r < steps r)%Z
  | Finishing | Finalising | Marking _ | Done => r_i r = steps r
  | Crashed _ => False
  end.

(** The locals against the point of the thread. *)
Definition locals_ok (r : runner) : Prop :=
  match r_at r with
  | Working => ∃ v, py_get (r_st r) "status" = inr v ∧ py_eq_str v "paused" = false
  | Cancelling | Returned => saw r "cancelled" = true
  | Marking meta => status_dict meta
  | _ => True
  end.

(** The Progress record against the loop variable: the record of
    [start_operation] until the first unit of work, the last record of the
    loop from then on. *)
Definition progress_ok (op_id : string) (r : runner) (t : gmap string row) : Prop :=
  (λ x, load (value x)) <$> t !! progress_key op_id
  = Some (PDict {[ "step" := PInt (r_i r);
                   "total" := PInt (if (r_i r =? 0)%Z then r_duration r
                                    else steps r) ]}).

(** The Result record against the point of the thread. *)
Definition result_ok (op_id : string) (r : runner) (t : gmap string row) : Prop :=
  match r_at r with
  | Finalising | Marking _ | Done =>
      ∃ now, (λ x, load (value x)) <$> t !! result_key op_id
             = Some (PDict {[ "status" := PStr "finished";
                              "completed_at" := PInt now ]})
  | Returned =>
      (λ x, load (value x)) <$> t !! result_key op_id
      = Some (PDict {[ "status" := PStr "cancelled" ]})
  | _ => t !! result_key op_id = None
  end.

Record wf (w : world) : Prop := {
  wf_keys : ∀ k, is_Some (session w !! k) →
    ∃ u, is_Some (TASKS w !! u) ∧ owns u k;
  wf_ids : ∀ u, is_Some (TASKS w !! u) → uuid_shaped u = true;
  wf_meta : ∀ u, is_Some (TASKS w !! u) →
    ∃ x, session w !! meta_key u = Some x ∧ meta_row_ok x;
  wf_calls : ∀ cl, cl ∈ in_flight w →
    is_Some (TASKS w !! c_op_id cl) ∧ status_dict (c_meta cl);
  wf_runner : ∀ u r, TASKS w !! u = Some r →
    counter_ok r ∧ locals_ok r
    ∧ progress_ok u r (session w) ∧ result_ok u r (session w)
}.

(** *** Scenarios

    Traces used to instantiate the statements of Part II. The first is the
    demo of [main.py]: one operation of eight steps with the caller's
    annotation, followed through its first unit of work. *)
Definition demo_id : string := "123e4567-e89b-42d3-a456-426614174000".

Definition demo_trace : list action :=
  [Tick 1700000000;
   Start demo_id 8 (Some {[ "demo" := PBool true ]});
   Run demo_id; Tick 1; Run demo_id].

Definition demo_world : world := default init (exec demo_trace init).

(** The same id, started for two steps and cancelled at once, before its
    runner has made a move. *)
Definition cancel_trace : list action :=
  [Start demo_id 2 None; Enter Cancel demo_id; Leave 0].

Definition cancelled_world : world := default init (exec cancel_trace init).

(** Started for two steps and paused while the runner is in its first unit
    of work. *)
Definition pause_trace : list action :=
  [Start demo_id 2 None; Run demo_id; Enter Pause demo_id; Leave 0].

Definition paused_world : world := default init (exec pause_trace init).

(** The demo right after its start. *)
Definition started_world : world :=
  default init
    (exec [Tick 1700000000;
           Start demo_id 8 (Some {[ "demo" := PBool true ]})] init).

(** The cancelled operation with a resume in flight, and after it. *)
Definition resuming_world : world :=
  default init (exec [Enter Resume demo_id] cancelled_world).

Definition resumed_world : world :=
  default init (exec [Leave 0] resuming_world).

(** The paused operation after the next move of its runner. *)
Definition worked_world : world :=
  default init (exec [Run demo_id] paused_world).

(** Operations started for a negative duration, and for none at all; the
    latter also after its one unit of work. *)
Definition negative_world : world :=
  default init (exec [Start demo_id (-1) None] init).



(** An operation of one step whose runner has written its Result and not
    yet the status. *)
Definition finishing_world : world :=
  default init
    (exec [Start demo_id 1 None; Run demo_id; Run demo_id; Run demo_id] init).


End Manager.

(** ** Observations on the registry, the counters and held metadata *)

Module Observations.
Import Json SQLiteSession Manager.

(** The value of a counter; one that was never bumped counts as zero. *)
Definition counter (name : string) (w : world) : nat :=
  default 0 (metrics w !! name).

(** A tally over the threads of the registry. *)
Definition tally (f : runner → nat) (T : gmap string runner) : nat :=
  map_fold (λ _ r acc, f r + acc) 0 T.

(** The units of work a thread has done, and whether it has left through
    the end of its function or through the [return] of the pause loop. *)
Definition units_done (r : runner) : nat := Z.to_nat (r_i r).
Definition has_finished (r : runner) : nat :=
  match r_at r with Done => 1 | _ => 0 end.
Definition has_returned (r : runner) : nat :=
  match r_at r with Returned => 1 | _ => 0 end.

(** What the four counters of the runner and of [start_operation] say. *)
Definition counters_tell (w : world) : Prop :=
  counter "ops_started_total" w = size (TASKS w)
  ∧ counter "ops_heartbeat_total" w = tally units_done (TASKS w)
  ∧ counter "ops_finished_total" w = tally has_finished (TASKS w)
  ∧ counter "ops_cancelled_total" w = tally has_returned (TASKS w).

(** A field of a metadata value held by a thread or by a call in flight. *)
Definition local_field (v : pyval) (name : string) : option pyval :=
  match v with
  | PDict d => d !! name
  | _ => None
  end.

(** A held metadata value that is what the table holds, but for the
    status. *)
Definition holds_current (v : pyval) (op_id : string) (w : world) : Prop :=
  json_native v = true
  ∧ ∀ name, name ≠ "status" →
      local_field v name = field (meta_key op_id) name w.

(** Every metadata value held for writing back is current in that sense. *)
Record settled (w : world) : Prop := {
  settled_calls : ∀ cl, cl ∈ in_flight w →
    holds_current (c_meta cl) (c_op_id cl) w;
  settled_marking : ∀ u r meta, TASKS w !! u = Some r →
    r_at r = Marking meta → holds_current meta u w
}.

(** *** Further scenarios *)

(** An operation of two steps paused before its runner has made a move,
    and the same once the runner has entered the pause loop and a cancel
    has followed. *)
Definition held_world : world :=
  default init
    (exec [Start demo_id 2 None; Enter Pause demo_id; Leave 0] init).

Definition held_cancelled_world : world :=
  default init
    (exec [Run demo_id; Enter Cancel demo_id; Leave 0] held_world).

(** The runner of the latter, waiting with the metadata it last read. *)
Definition held_runner : runner :=
  Runner 2 0
    (PDict {[ "status" := PStr "paused"; "duration" := PInt 2;
              "created_at" := PInt 0 ]})
    Paused.

(** The started demo after a pause and a move of its runner. *)
Definition demo_paused_world : world :=
  default init
    (exec [Enter Pause demo_id; Leave 0; Run demo_id] started_world).

(** A row that a worker agent keeps in the same table. *)
Definition worker_rows : gmap string row :=
  {[ "worker-1-last" :=
       Row (Doc (JObj {[ "worker" := JStr "worker-1";
                         "type" := JStr "simulated";
                         "status" := JStr "done" ]})) 1700000005 ]}.

End Observations.

(** ** The in-memory session store of [memory/session_memory.py] *)

Module InMemorySession.
Import Json.

(** The store is a dict from keys to the values themselves, with no
    encoding in between. A value is taken as it is when the call is made:
    the dict keeps the caller's object, so a caller that changes the object
    afterwards changes what the store holds, which is outside these
    definitions. *)

(** [write]: [self.store[key] = value] *)
Definition write (key : string) (value : pyval)
    (store : gmap string pyval) : gmap string pyval :=
  <[key := value]> store.

(** [read]: [self.store.get(key, default)] *)
Definition read (key : string) (default : pyval)
    (store : gmap string pyval) : pyval :=
  match store !! key with
  | None => default
  | Some value => value
  end.

(** [all]: [dict(self.store)], a copy of the store. *)
Definition all (store : gmap string pyval) : gmap string pyval := store.

End InMemorySession.

(** ** Sequences of writes to a session store *)

Module Calls.
Import Json SQLiteSession.






End Calls.

(** ** The summarize tool of [agents/adk_ops_agent.py] *)

Module Agent.
Import Json.

(** The line feed. *)
Definition newline : ascii := "010"%char.

(** [c.isspace()] for a character below code point 256: the controls 9 to
    13 and 28 to 31, the space, NEL and the no-break space. *)
Definition isspace (c : ascii) : bool :=
  let n := nat_of_ascii c in
  (9 <=? n) && (n <=? 13) || (28 <=? n) && (n <=? 32)
  || (n =? 133) || (n =? 160).

(** [s.lstrip()] and [s.rstrip()], the two halves of [s.strip()]. *)
Fixpoint lstrip (s : string) : string :=
  match s with
  | EmptyString => EmptyString
  | String c s' => if isspace c then lstrip s' else s
  end.

Fixpoint rstrip (s : string) : string :=
  match s with
  | EmptyString => EmptyString
  | String c s' =>
      match rstrip s' with
      | EmptyString => if isspace c then EmptyString else String c EmptyString
      | rest => String c rest
      end
  end.

Definition strip (s : string) : string := rstrip (lstrip s).

(** [s.replace(old, new)] for one-character [old] and [new]. *)
Fixpoint replace (old new : ascii) (s : string) : string :=
  match s with
  | EmptyString => EmptyString
  | String c s' =>
      String (if Ascii.eqb c old then new else c) (replace old new s')
  end.

(** [summarize_incident(text)], on a text of characters below code point
    256. *)
Definition summarize_incident (text : string) : gmap string pyval :=
  if negb (truthy (PStr text)) then
    {[ "status" := PStr "error"; "summary" := PStr "" ]}
  else
    let summary := replace newline " " (strip text) in
    let summary :=
      if 280 <? String.length summary
      then substring 0 277 summary +:+ "..."
      else summary in
    {[ "status" := PStr "ok"; "summary" := PStr summary ]}.

(** A string that does not begin, or does not end, with white space. *)
Definition headok (s : string) : bool :=
  match s with
  | EmptyString => true
  | String c _ => negb (isspace c)
  end.

Fixpoint lastok (s : string) : bool :=
  match s with
  | EmptyString => true
  | String c EmptyString => negb (isspace c)
  | String _ s' => lastok s'
  end.

(** An incident report of two lines, with white space around it. *)
Definition incident_text : string :=
  "  disk full" +:+ String newline "on db-1  ".

End Agent.

(** * Part II: properties *)

(** ** Two facts about folds over finite maps, used for nested values *)

Section map_fold_facts.
Context {A : Type}.

Lemma map_fold_sum_le (f : A → nat) (m : gmap string A) k x :
  m !! k = Some x → f x ≤ map_fold (λ _ y acc, f y + acc) 0 m.
Proof.
  revert k x.
  apply (map_fold_weak_ind
           (λ r (m : gmap string A), ∀ k x, m !! k = Some x → f x ≤ r)).
  - intros k x Hk. by rewrite lookup_empty in Hk.
  - intros i y m' r Hi IH k x Hk.
    destruct (decide (i = k)) as [->|Hne].
    + rewrite lookup_insert_eq in Hk. injection Hk as ->. lia.
    + rewrite lookup_insert_ne in Hk by done. specialize (IH k x Hk). lia.
Qed.

Lemma map_fold_andb_true (g : A → bool) (m : gmap string A) :
  map_fold (λ _ y acc, g y && acc) true m = true
  ↔ map_Forall (λ _ y, g y = true) m.
Proof.
  apply (map_fold_weak_ind
           (λ r (m : gmap string A),
              r = true ↔ map_Forall (λ _ y, g y = true) m)).
  - split; [intros _; apply map_Forall_empty | done].
  - intros i y m' r Hi IH. rewrite map_Forall_insert by done.
    rewrite andb_true_iff, IH. done.
Qed.

End map_fold_facts.

(** ** JSON round trips *)

Section json_facts.
Import Json.

Lemma foldr_sum_le {A} (f : A → nat) (l : list A) x :
  x ∈ l → f x ≤ foldr (λ y acc, f y + acc) 0 l.
Proof.
  induction l as [|y l IH]; intros Hx.
  - by apply not_elem_of_nil in Hx.
  - apply elem_of_cons in Hx as [->|Hx]; simpl; [lia|].
    specialize (IH Hx). lia.
Qed.

(** Induction with the hypothesis available for every element of a list
    or a dict. *)
Lemma pyval_nested_ind (P : pyval → Prop) :
  P PNone → (∀ b, P (PBool b)) → (∀ z, P (PInt z)) → (∀ s, P (PStr s)) →
  (∀ l, Forall P l → P (PList l)) →
  (∀ l, Forall P l → P (PTuple l)) →
  (∀ d, map_Forall (λ _ x, P x) d → P (PDict d)) →
  (∀ r, P (PObj r)) →
  ∀ v, P v.
Proof.
  intros HN HB HI HS HL HT HD HO v.
  remember (pysize v) as n eqn:Hn. revert v Hn.
  induction n as [n IH] using lt_wf_ind. intros v ->.
  destruct v as [ | | | |l|l|d| ]; auto.
  - apply HL, Forall_forall. intros x Hx.
    apply (IH (pysize x)); [|done]. simpl.
    pose proof (foldr_sum_le pysize l x Hx). lia.
  - apply HT, Forall_forall. intros x Hx.
    apply (IH (pysize x)); [|done]. simpl.
    pose proof (foldr_sum_le pysize l x Hx). lia.
  - apply HD. intros k x Hk.
    apply (IH (pysize x)); [|done]. simpl.
    pose proof (map_fold_sum_le pysize d k x Hk). lia.
Qed.

Lemma jval_nested_ind (P : jval → Prop) :
  P JNull → (∀ b, P (JBool b)) → (∀ z, P (JInt z)) → (∀ s, P (JStr s)) →
  (∀ l, Forall P l → P (JArr l)) →
  (∀ d, map_Forall (λ _ x, P x) d → P (JObj d)) →
  ∀ j, P j.
Proof.
  intros HN HB HI HS HL HD j.
  remember (jsize j) as n eqn:Hn. revert j Hn.
  induction n as [n IH] using lt_wf_ind. intros j ->.
  destruct j as [ | | | |l|d]; auto.
  - apply HL, Forall_forall. intros x Hx.
    apply (IH (jsize x)); [|done]. simpl.
    pose proof (foldr_sum_le jsize l x Hx). lia.
  - apply HD. intros k x Hk.
    apply (IH (jsize x)); [|done]. simpl.
    pose proof (map_fold_sum_le jsize d k x Hk). lia.
Qed.

(** What [json.loads] returns is native. *)
Lemma json_loads_native j : json_native (json_loads j) = true.
Proof.
  induction j as [ | | | |l IH|d IH] using jval_nested_ind; simpl; auto.
  - apply forallb_forall. intros v Hv.
    apply in_map_iff in Hv as (x & <- & Hx).
    rewrite Forall_forall in IH. apply IH. by apply list_elem_of_In.
  - apply map_fold_andb_true. intros k v Hk.
    rewrite lookup_fmap in Hk.
    destruct (d !! k) as [x|] eqn:Hx; simplify_eq/=. by apply (IH k x).
Qed.

(** Parsing and printing again gives the document back. *)
Lemma json_dumps_loads j : json_dumps (json_loads j) = j.
Proof.
  induction j as [ | | | |l IH|d IH] using jval_nested_ind; simpl; auto.
  - f_equal. rewrite map_map. rewrite <- (map_id l) at 2.
    apply map_ext_in. intros x Hx.
    rewrite Forall_forall in IH. apply IH. by apply list_elem_of_In.
  - f_equal. rewrite <- map_fmap_compose.
    rewrite <- (map_fmap_id d) at 2.
    apply map_fmap_ext. intros k x Hk. simpl. by apply (IH k x).
Qed.

(** Printing and parsing a native value gives the value back. *)
Lemma json_loads_dumps v :
  json_native v = true → json_loads (json_dumps v) = v.
Proof.
  induction v as [ | | | |l IH|l IH|d IH| ] using pyval_nested_ind;
    simpl; intros Hn; auto; try discriminate.
  - f_equal. rewrite map_map. rewrite <- (map_id l) at 2.
    apply map_ext_in. intros x Hx.
    rewrite Forall_forall in IH. apply IH; [by apply list_elem_of_In|].
    rewrite forallb_forall in Hn. by apply Hn.
  - f_equal. rewrite <- map_fmap_compose.
    rewrite <- (map_fmap_id d) at 2.
    apply map_fmap_ext. intros k x Hk. simpl.
    apply (IH k x Hk). apply map_fold_andb_true in Hn. by apply (Hn k x).
Qed.

End json_facts.

(** ** The session store *)

Section session_facts.
Import Json SQLiteSession.


Lemma read_write_ne now key key' v default t :
  key' ≠ key →
  read key default (write now key' v t) = read key default t.
Proof. intros Hne. unfold read, write. by rewrite lookup_insert_ne. Qed.

Example read_missing : read "k" (PInt 7) ∅ = PInt 7.
Proof. reflexivity. Qed.

Example read_malformed :
  read "k" PNone (<["k" := Row (Malformed "{oops") 0]> ∅) = PStr "{oops".
Proof. vm_compute. reflexivity. Qed.

Example write_then_all :
  all (write 5 "k" (PDict {[ "n" := PInt 1 ]}) ∅)
  = {[ "k" := PDict {[ "n" := PInt 1 ]} ]}.
Proof. vm_compute. reflexivity. Qed.




End session_facts.

(** ** Keys of the records *)

Section key_facts.
Import Json SQLiteSession Manager.

Lemma chars_app (a b : string) :
  list_ascii_of_string (a +:+ b)
  = list_ascii_of_string a ++ list_ascii_of_string b.
Proof.
  induction a as [|c a IH]; [done|].
  change (String c a +:+ b) with (String c (a +:+ b)). simpl. by rewrite IH.
Qed.

Lemma chars_inj (a b : string) :
  list_ascii_of_string a = list_ascii_of_string b → a = b.
Proof.
  intros H. rewrite <- (string_of_list_ascii_of_string a),
    <- (string_of_list_ascii_of_string b). by rewrite H.
Qed.

(** The key of a record: the prefix, the id, and one of three endings. *)
Lemma key_inj (a b suffix : string) :
  "op:" +:+ a +:+ suffix = "op:" +:+ b +:+ suffix → a = b.
Proof.
  intros H. apply (inj (String.app "op:")) in H.
  apply chars_inj. apply (f_equal list_ascii_of_string) in H.
  rewrite !chars_app in H. by apply app_inv_tail in H.
Qed.

Lemma key_last (a suffix : string) (c : ascii) :
  last (list_ascii_of_string ("op:" +:+ a +:+ suffix +:+ String c ""))
  = Some c.
Proof.
  rewrite !chars_app, !app_assoc.
  change (list_ascii_of_string (String c "")) with [c]. apply last_snoc.
Qed.

Lemma meta_key_inj a b : meta_key a = meta_key b → a = b.
Proof. apply key_inj. Qed.
Lemma progress_key_inj a b : progress_key a = progress_key b → a = b.
Proof. apply key_inj. Qed.
Lemma result_key_inj a b : result_key a = result_key b → a = b.
Proof. apply key_inj. Qed.

Lemma meta_progress_ne a b : meta_key a ≠ progress_key b.
Proof.
  intros H. apply (f_equal (λ k, last (list_ascii_of_string k))) in H.
  unfold meta_key, progress_key in H.
  change ":meta" with (":met" +:+ "a") in H.
  change ":progress" with (":progres" +:+ "s") in H.
  by rewrite !key_last in H.
Qed.

Lemma meta_result_ne a b : meta_key a ≠ result_key b.
Proof.
  intros H. apply (f_equal (λ k, last (list_ascii_of_string k))) in H.
  unfold meta_key, result_key in H.
  change ":meta" with (":met" +:+ "a") in H.
  change ":result" with (":resul" +:+ "t") in H.
  by rewrite !key_last in H.
Qed.

Lemma progress_result_ne a b : progress_key a ≠ result_key b.
Proof.
  intros H. apply (f_equal (λ k, last (list_ascii_of_string k))) in H.
  unfold progress_key, result_key in H.
  change ":progress" with (":progres" +:+ "s") in H.
  change ":result" with (":resul" +:+ "t") in H.
  by rewrite !key_last in H.
Qed.

End key_facts.

(** ** Supervisor calls, run from entry to return *)

Section control_facts.
Import Json SQLiteSession Manager.

Lemma native_dict (d : gmap string pyval) :
  map_Forall (λ _ v, json_native v = true) d → json_native (PDict d) = true.
Proof. intros H. simpl. by apply map_fold_andb_true. Qed.

Lemma native_dict_insert (d : gmap string pyval) k v :
  json_native (PDict d) = true → json_native v = true →
  json_native (PDict (<[k := v]> d)) = true.
Proof.
  intros Hd Hv. apply native_dict. apply map_Forall_insert_2; [done|].
  by apply map_fold_andb_true in Hd.
Qed.

(** A call is its entry followed at once by its exit. *)
Lemma control_operation_halves c op_id w :
  control_operation c op_id w
  = let meta := read (meta_key op_id) PNone (session w) in
    if negb (truthy meta) then (inr false, w)
    else leave (Call c op_id meta) w.
Proof.
  destruct c; simpl;
    unfold pause_operation, resume_operation, cancel_operation, leave;
    unfold mbind, M_bind, mret, M_ret, session_read; simpl;
    by destruct (truthy _).
Qed.

Lemma leave_dict c op_id (d : gmap string pyval) w :
  leave (Call c op_id (PDict d)) w
  = (inr true,
     set_metrics (Metrics.inc_counter (control_counter c))
       (set_session
          (write (clock w) (meta_key op_id)
             (PDict (<["status" := PStr (control_status c)]> d))) w)).
Proof. reflexivity. Qed.

Lemma leave_raises c op_id meta w :
  (∀ d, meta ≠ PDict d) → leave (Call c op_id meta) w = (inl TypeError, w).
Proof. intros H. destruct meta; try reflexivity. by destruct (H d). Qed.

Lemma control_not_found c op_id w :
  session w !! meta_key op_id = None →
  control_operation c op_id w = (inr false, w).
Proof.
  intros H. rewrite control_operation_halves. unfold read. by rewrite H.
Qed.

Lemma truthy_status_dict v : status_dict v → truthy v = true.
Proof.
  intros (d & -> & [x Hx]). simpl. rewrite bool_decide_eq_false_2; [done|].
  intros ->. by rewrite lookup_empty in Hx.
Qed.

Lemma read_meta_row op_id x default t :
  t !! meta_key op_id = Some x → meta_row_ok x →
  ∃ d, read (meta_key op_id) default t = PDict d
       ∧ is_Some (d !! "status") ∧ json_native (PDict d) = true
       ∧ value x = Doc (json_dumps (PDict d)).
Proof.
  intros Hx (dj & Hv & [s Hs]). unfold read. rewrite Hx, Hv. simpl.
  exists (json_loads <$> dj). split_and!; [done| | |].
  - rewrite lookup_fmap, Hs. by eexists.
  - apply (json_loads_native (JObj dj)).
  - f_equal. symmetry. apply (json_dumps_loads (JObj dj)).
Qed.

Lemma control_found c op_id x w :
  session w !! meta_key op_id = Some x → meta_row_ok x →
  ∃ d, read (meta_key op_id) PNone (session w) = PDict d
    ∧ is_Some (d !! "status") ∧ json_native (PDict d) = true
    ∧ value x = Doc (json_dumps (PDict d))
    ∧ control_operation c op_id w
      = (inr true,
         set_metrics (Metrics.inc_counter (control_counter c))
           (set_session
              (write (clock w) (meta_key op_id)
                 (PDict (<["status" := PStr (control_status c)]> d))) w)).
Proof.
  intros Hx Hok.
  destruct (read_meta_row op_id x PNone _ Hx Hok) as (d & Hr & Hs & Hn & Hv).
  exists d. split_and!; try done.
  rewrite control_operation_halves. simpl. rewrite Hr.
  rewrite (truthy_status_dict (PDict d)) by (by exists d). simpl.
  apply leave_dict.
Qed.

End control_facts.

(** ** Every reachable world is well formed *)

(** Unfolding of the monadic code and of the parts of the invariant. *)
Ltac unfold_M :=
  unfold mbind, Manager.M_bind, mret, Manager.M_ret, Manager.lift,
    Manager.session_read, Manager.session_write,
    Manager.metrics_inc_counter, Manager.time_time, Manager.set_session,
    Manager.set_metrics, Manager.set_TASKS, Manager.set_in_flight;
  lazy beta iota;
  cbn [fst snd Manager.session Manager.metrics Manager.clock Manager.TASKS
       Manager.in_flight Manager.r_at Manager.r_i Manager.r_duration
       Manager.r_st].

(** Closed facts about concrete runs are settled by evaluation. *)
Ltac run_trace := vm_compute; reflexivity.

Ltac unfold_ok :=
  unfold Manager.counter_ok, Manager.locals_ok, Manager.progress_ok,
    Manager.result_ok, Manager.saw, Manager.steps in *;
  cbn [Manager.r_at Manager.r_i Manager.r_duration Manager.r_st] in *.

Section invariant.
Import Json SQLiteSession Manager.

Lemma owns_meta u u' : owns u (meta_key u') → u' = u.
Proof.
  intros [H|[H|H]]; [by apply meta_key_inj in H| |].
  - by apply meta_progress_ne in H.
  - by apply meta_result_ne in H.
Qed.

Lemma owns_progress u u' : owns u (progress_key u') → u' = u.
Proof.
  intros [H|[H|H]]; [|by apply progress_key_inj in H|].
  - symmetry in H. by apply meta_progress_ne in H.
  - by apply progress_result_ne in H.
Qed.

Lemma owns_result u u' : owns u (result_key u') → u' = u.
Proof.
  intros [H|[H|H]]; [| |by apply result_key_inj in H].
  - symmetry in H. by apply meta_result_ne in H.
  - symmetry in H. by apply progress_result_ne in H.
Qed.

#[local] Instance owns_dec u k : Decision (owns u k).
Proof. unfold owns. apply _. Defined.

Lemma steps_pos r : (1 ≤ steps r)%Z.
Proof. unfold steps. lia. Qed.

Lemma wf_init : wf init.
Proof.
  split; simpl.
  - intros k [x Hx]. by rewrite lookup_empty in Hx.
  - intros u [x Hx]. by rewrite lookup_empty in Hx.
  - intros u [x Hx]. by rewrite lookup_empty in Hx.
  - intros cl Hcl. by apply not_elem_of_nil in Hcl.
  - intros u r Hr. by rewrite lookup_empty in Hr.
Qed.

(** Well-formedness only looks at the table, the registry and the calls. *)
Lemma wf_same w w' :
  session w' = session w → TASKS w' = TASKS w → in_flight w' = in_flight w →
  wf w → wf w'.
Proof.
  intros Hs Ht Hf [H1 H2 H3 H4 H5].
  split; rewrite ?Hs, ?Ht, ?Hf; done.
Qed.

(** One operation's keys and thread change; the rest of the world is
    carried over. *)
Lemma wf_touch w u r' s' m' c' fl' :
  wf w →
  uuid_shaped u = true →
  (∀ k, ¬ owns u k → s' !! k = session w !! k) →
  (∃ x, s' !! meta_key u = Some x ∧ meta_row_ok x) →
  counter_ok r' ∧ locals_ok r' ∧ progress_ok u r' s' ∧ result_ok u r' s' →
  (∀ cl, cl ∈ fl' →
     (is_Some (TASKS w !! c_op_id cl) ∨ c_op_id cl = u)
     ∧ status_dict (c_meta cl)) →
  wf (World s' m' c' (<[u := r']> (TASKS w)) fl').
Proof.
  intros [Hk Hi Hm Hc Hr] Hu Hframe Hmeta Hrun Hcalls. split; simpl.
  - intros k Hsome. destruct (decide (owns u k)) as [Ho|Ho].
    + exists u. by rewrite lookup_insert_eq.
    + rewrite Hframe in Hsome by done.
      destruct (Hk k Hsome) as (u0 & Hu0 & Ho0). exists u0. split; [|done].
      apply lookup_insert_is_Some'. by right.
  - intros u0 [->|H]%lookup_insert_is_Some'; [done|by apply Hi].
  - intros u0 [->|H]%lookup_insert_is_Some'; [done|].
    destruct (decide (u0 = u)) as [->|Hne]; [done|].
    rewrite Hframe; [by apply Hm|]. intros Ho%owns_meta. done.
  - intros cl Hcl. destruct (Hcalls cl Hcl) as [[H| ->] Hd]; split; try done.
    + apply lookup_insert_is_Some'. by right.
    + by rewrite lookup_insert_eq.
  - intros u0 r0 H0. destruct (decide (u0 = u)) as [->|Hne].
    + rewrite lookup_insert_eq in H0. by injection H0 as <-.
    + rewrite lookup_insert_ne in H0 by done.
      destruct (Hr u0 r0 H0) as (? & ? & Hp & Hres). split_and!; try done.
      * unfold progress_ok. rewrite Hframe; [done|].
        intros Ho%owns_progress. done.
      * unfold result_ok. rewrite Hframe; [done|].
        intros Ho%owns_result. done.
Qed.


Lemma native_progress k t :
  json_native (PDict {[ "step" := PInt k; "total" := PInt t ]}) = true.
Proof.
  apply native_dict, map_Forall_insert_2; [done|]. by apply map_Forall_singleton.
Qed.

Lemma native_finished now :
  json_native (PDict {[ "status" := PStr "finished";
                        "completed_at" := PInt now ]}) = true.
Proof.
  apply native_dict, map_Forall_insert_2; [done|]. by apply map_Forall_singleton.
Qed.

Lemma native_cancelled :
  json_native (PDict {[ "status" := PStr "cancelled" ]}) = true.
Proof. apply native_dict. by apply map_Forall_singleton. Qed.

Lemma meta_row_written now (d : gmap string pyval) :
  is_Some (d !! "status") → meta_row_ok (Row (Doc (json_dumps (PDict d))) now).
Proof.
  intros [x Hx]. exists (json_dumps <$> d). split; [done|].
  rewrite lookup_fmap, Hx. by eexists.
Qed.

Lemma wf_tick w dt : wf w → wf (set_clock (Z.add dt) w).
Proof. by apply wf_same. Qed.

Lemma wf_start w u d md :
  wf w → uuid_shaped u = true → TASKS w !! u = None →
  wf (start_operation u d md w).2.
Proof.
  intros Hwf Hu Hfresh.
  unfold start_operation, mbind, M_bind, mret, M_ret, time_time,
    session_write, thread_start, metrics_inc_counter,
    set_session, set_metrics, set_TASKS. cbn.
  apply wf_touch; try done.
  - intros k Ho. unfold write.
    rewrite !lookup_insert_ne; [done| |]; intros <-; apply Ho;
      unfold owns; auto.
  - unfold write. rewrite lookup_insert_ne by (symmetry; apply meta_progress_ne).
    rewrite lookup_insert_eq. eexists. split; [done|].
    apply meta_row_written.
    destruct md as [md|]; [destruct (negb _)|];
      rewrite ?lookup_union_is_Some, ?lookup_insert_eq; [right| |];
      rewrite ?lookup_insert_eq; by eexists.
  - split_and!.
    + unfold counter_ok, steps. cbn. lia.
    + done.
    + unfold progress_ok, write. rewrite lookup_insert_eq. cbn [fmap option_fmap option_map value load r_i r_duration Z.eqb].
      by rewrite json_loads_dumps by apply native_progress.
    + unfold result_ok, write. cbn [r_at].
      rewrite !lookup_insert_ne
        by (first [apply progress_result_ne | apply meta_result_ne]).
      destruct (session w !! result_key u) as [x|] eqn:Hx; [|done].
      destruct (wf_keys w Hwf (result_key u)) as (u0 & Hu0 & Ho);
        [by eexists|].
      apply owns_result in Ho as ->. rewrite Hfresh in Hu0.
      by destruct Hu0.
  - intros cl Hcl. destruct (wf_calls w Hwf cl Hcl). auto.
Qed.


Lemma meta_lookup_ok w op_id x :
  wf w → session w !! meta_key op_id = Some x →
  is_Some (TASKS w !! op_id) ∧ meta_row_ok x.
Proof.
  intros Hwf Hx.
  destruct (wf_keys w Hwf (meta_key op_id)) as (u & Hu & Ho); [by eexists|].
  apply owns_meta in Ho as ->. split; [done|].
  destruct (wf_meta w Hwf u Hu) as (x' & Hx' & Hok). congruence.
Qed.

Lemma wf_enter w c op_id : wf w → wf (enter c op_id w).
Proof.
  intros Hwf. unfold enter.
  destruct (truthy _) eqn:Ht; [|done]. simpl.
  destruct Hwf as [Hk Hi Hm Hc Hr] eqn:E. split; try done. simpl.
  intros cl [Hcl| ->%list_elem_of_singleton]%elem_of_app; [by apply Hc|].
  simpl. unfold read in *.
  destruct (session w !! meta_key op_id) as [x|] eqn:Hx; [|done].
  destruct (meta_lookup_ok w op_id x) as [Hu Hok]; [done..|].
  split; [done|]. destruct Hok as (dj & -> & [v Hv]). simpl.
  exists (json_loads <$> dj). split; [done|].
  rewrite lookup_fmap, Hv. by eexists.
Qed.

(** The same, when the thread of the operation does not move. *)
Lemma wf_touch_meta w u r s' m' c' fl' :
  wf w →
  TASKS w !! u = Some r →
  (∀ k, k ≠ meta_key u → s' !! k = session w !! k) →
  (∃ x, s' !! meta_key u = Some x ∧ meta_row_ok x) →
  (∀ cl, cl ∈ fl' → cl ∈ in_flight w) →
  wf (World s' m' c' (TASKS w) fl').
Proof.
  intros Hwf Hu Hframe Hmeta Hcalls.
  rewrite <- (insert_id (TASKS w) u r) by done.
  apply wf_touch; try done.
  - apply (wf_ids w Hwf). by eexists.
  - intros k Ho. apply Hframe. intros ->. apply Ho. unfold owns. auto.
  - destruct (wf_runner w Hwf u r Hu) as (? & ? & Hp & Hres).
    split_and!; try done.
    + unfold progress_ok. rewrite Hframe; [done|].
      intros H'. symmetry in H'. by apply meta_progress_ne in H'.
    + unfold result_ok. rewrite Hframe; [done|].
      intros H'. symmetry in H'. by apply meta_result_ne in H'.
  - intros cl Hcl. destruct (wf_calls w Hwf cl (Hcalls cl Hcl)). auto.
Qed.

Lemma wf_leave w n cl :
  wf w → in_flight w !! n = Some cl →
  wf (set_in_flight (delete n) (leave cl w).2).
Proof.
  intros Hwf Hn.
  assert (Hin : cl ∈ in_flight w) by (by eapply list_elem_of_lookup_2).
  destruct (wf_calls w Hwf cl Hin) as [[r Hr] (d & Hd & Hs)].
  destruct cl as [c u meta]. simpl in *. subst meta.
  rewrite leave_dict. unfold set_in_flight, set_metrics, set_session. cbn.
  apply (wf_touch_meta w u r); try done.
  - intros k Hne. unfold write. by rewrite lookup_insert_ne.
  - unfold write. rewrite lookup_insert_eq. eexists. split; [done|].
    apply meta_row_written. rewrite lookup_insert_eq. by eexists.
  - intros cl. apply list_elem_of_delete_inv.
Qed.


Lemma read_meta_started w u default :
  wf w → is_Some (TASKS w !! u) →
  ∃ d, read (meta_key u) default (session w) = PDict d
       ∧ is_Some (d !! "status").
Proof.
  intros Hwf Hu. destruct (wf_meta w Hwf u Hu) as (x & Hx & Hok).
  destruct (read_meta_row u x default _ Hx Hok) as (d & ? & ? & _).
  by exists d.
Qed.

Lemma wf_run w u r :
  wf w → TASKS w !! u = Some r → alive (r_at r) = true → wf (run u r w).
Proof.
  intros Hwf Hr Halive.
  destruct (read_meta_started w u (PDict ∅) Hwf) as (d0 & Hread & [s0 Hs0]);
    [by eexists|].
  destruct (wf_runner w Hwf u r Hr) as (Hc & Hl & Hp & Hres).
  assert (Hu : uuid_shaped u = true) by (apply (wf_ids w Hwf); by eexists).
  assert (Hm : ∃ x, session w !! meta_key u = Some x ∧ meta_row_ok x)
    by (apply (wf_meta w Hwf); by eexists).
  assert (Hcalls : ∀ cl, cl ∈ in_flight w →
            (is_Some (TASKS w !! c_op_id cl) ∨ c_op_id cl = u)
            ∧ status_dict (c_meta cl))
    by (intros cl Hcl; destruct (wf_calls w Hwf cl Hcl); auto).
  destruct r as [d i st p]. unfold run, _simulate_task.
  unfold_ok.
  destruct p; try discriminate; unfold_M; rewrite ?Hread;
    cbn [py_get py_setitem]; rewrite ?Hs0; cbn [default from_option id].
  - (* at the boundary: the read of line 97 *)
    destruct (py_eq_str s0 "paused") eqn:E; unfold_M;
      apply wf_touch; try done.
    split_and!; unfold_ok; try done. cbn. rewrite Hs0. by exists s0.
  - (* in the pause loop *)
    destruct (py_eq_str s0 "running") eqn:E1;
      [|destruct (py_eq_str s0 "cancelled") eqn:E2];
      unfold_M; apply wf_touch; try done; split_and!; unfold_ok; try done.
    + cbn. rewrite Hs0. exists s0. split; [done|].
      destruct s0; try done. cbn in *.
      apply String.eqb_eq in E1 as ->. done.
    + unfold saw. cbn. by rewrite Hs0.
  - (* the cancelled Result *)
    apply wf_touch; try done.
    + intros k Ho. unfold write. rewrite lookup_insert_ne; [done|].
      intros <-. apply Ho. unfold owns. auto.
    + unfold write. rewrite lookup_insert_ne; [done|].
      intros H'. symmetry in H'. by apply meta_result_ne in H'.
    + split_and!; unfold_ok; try done.
      * unfold write. rewrite lookup_insert_ne; [done|].
        intros H'. symmetry in H'. by apply progress_result_ne in H'.
      * unfold write. rewrite lookup_insert_eq.
        cbn [fmap option_fmap option_map value load].
        by rewrite (json_loads_dumps _ native_cancelled).
  - (* a unit of work: the Progress write *)
    destruct (i + 1 <? Z.max 1 d)%Z eqn:E;
      [apply Z.ltb_lt in E|apply Z.ltb_ge in E];
      (unfold_M; apply wf_touch; try done;
       [ intros k Ho; unfold write; rewrite lookup_insert_ne; [done|];
         intros <-; apply Ho; unfold owns; auto
       | unfold write; rewrite lookup_insert_ne; [done|];
         intros H'; symmetry in H'; by apply meta_progress_ne in H'
       | split_and!; unfold_ok;
         [ lia
         | done
         | unfold write; rewrite lookup_insert_eq; cbn [fmap option_fmap option_map value load];
           rewrite (json_loads_dumps _ (native_progress _ _));
           replace (i + 1 =? 0)%Z with false by lia; done
         | unfold write; rewrite lookup_insert_ne; [done|];
           apply progress_result_ne ] ]).
  - (* the finished Result *)
    apply wf_touch; try done.
    + intros k Ho. unfold write. rewrite lookup_insert_ne; [done|].
      intros <-. apply Ho. unfold owns. auto.
    + unfold write. rewrite lookup_insert_ne; [done|].
      intros H'. symmetry in H'. by apply meta_result_ne in H'.
    + split_and!; unfold_ok; try done.
      * unfold write. rewrite lookup_insert_ne; [done|].
        intros H'. symmetry in H'. by apply progress_result_ne in H'.
      * exists (clock w). unfold write. rewrite lookup_insert_eq.
        cbn [fmap option_fmap option_map value load].
        by rewrite (json_loads_dumps _ (native_finished _)).
  - (* the last read of the metadata *)
    apply wf_touch; try done. split_and!; unfold_ok; try done.
    exists d0. split; [done|]. by exists s0.
  - (* the metadata written back as finished *)
    destruct Hl as (dm & -> & Hsm). cbn.
    apply wf_touch; try done.
    + intros k Ho. unfold write. rewrite lookup_insert_ne; [done|].
      intros <-. apply Ho. unfold owns. auto.
    + unfold write. rewrite lookup_insert_eq. eexists. split; [done|].
      apply meta_row_written. rewrite lookup_insert_eq. by eexists.
    + split_and!; unfold_ok; try done.
      * unfold write. rewrite lookup_insert_ne; [done|]. apply meta_progress_ne.
      * unfold write. rewrite lookup_insert_ne; [done|]. apply meta_result_ne.
Qed.

(** The invariant along any run of the process. *)
Lemma wf_step a w w' : wf w → step a w = Some w' → wf w'.
Proof.
  intros Hwf Hstep. destruct a as [dt|u d md|c u|n|u]; simpl in Hstep.
  - destruct (0 <=? dt)%Z; [|done]. injection Hstep as <-. by apply wf_tick.
  - destruct (uuid_shaped u) eqn:Hu; [|done].
    destruct (bool_decide (TASKS w !! u = None)) eqn:Hf; [|done].
    apply bool_decide_eq_true in Hf. injection Hstep as <-.
    by apply wf_start.
  - injection Hstep as <-. by apply wf_enter.
  - destruct (in_flight w !! n) as [cl|] eqn:Hn; [|done].
    injection Hstep as <-. by apply wf_leave.
  - destruct (TASKS w !! u) as [r|] eqn:Hr; [|done].
    destruct (alive (r_at r)) eqn:Ha; [|done].
    injection Hstep as <-. by apply wf_run.
Qed.

Lemma wf_exec tr w w' : wf w → exec tr w = Some w' → wf w'.
Proof.
  revert w. induction tr as [|a tr IH]; intros w Hwf Hex; simpl in Hex.
  - by injection Hex as <-.
  - destruct (step a w) as [w1|] eqn:Hs; [|done].
    apply (IH w1); [|done]. by apply (wf_step a w).
Qed.

Lemma reachable_wf w : reachable w → wf w.
Proof. intros [tr Htr]. apply (wf_exec tr init); [apply wf_init|done]. Qed.

Lemma reachable_step a w w' : reachable w → step a w = Some w' → reachable w'.
Proof.
  intros [tr Htr] Hs. exists (tr ++ [a]).
  revert Htr. generalize init. induction tr as [|b tr IH]; intros w0 H0; simpl in *.
  - injection H0 as ->. by rewrite Hs.
  - destruct (step b w0) as [w1|]; [|done]. by apply IH.
Qed.

(** Runs given by their trace: it is enough to check that the trace can
    be run. *)
Lemma exec_default tr w :
  (if exec tr w is Some _ then true else false) = true →
  exec tr w = Some (default init (exec tr w)).
Proof. by destruct (exec tr w). Qed.

Lemma step_default a w :
  (if exec [a] w is Some _ then true else false) = true →
  step a w = Some (default init (exec [a] w)).
Proof. simpl. by destruct (step a w). Qed.

Lemma reachable_exec tr w w' :
  reachable w → exec tr w = Some w' → reachable w'.
Proof.
  revert w. induction tr as [|a tr IH]; intros w Hw Hex; simpl in Hex.
  - by injection Hex as <-.
  - destruct (step a w) as [w1|] eqn:Hs; [|done].
    apply (IH w1); [|done]. by apply (reachable_step a w).
Qed.

Lemma reachable_from tr w :
  reachable w → (if exec tr w is Some _ then true else false) = true →
  reachable (default init (exec tr w)).
Proof. intros Hw Hrun. apply (reachable_exec tr w); [done|]. by apply exec_default. Qed.

Lemma reachable_init : reachable init.
Proof. by exists []. Qed.

End invariant.

(** ** Supervisor calls on a reachable world *)

Section control_claims.
Import Json SQLiteSession Manager.

Lemma demo_reachable : reachable demo_world.
Proof. apply reachable_from; [apply reachable_init|run_trace]. Qed.

Lemma record_None key w : record key w = None ↔ session w !! key = None.
Proof. unfold record. apply fmap_None. Qed.

Lemma record_started w op_id :
  reachable w → record (meta_key op_id) w ≠ None →
  ∃ x, session w !! meta_key op_id = Some x ∧ meta_row_ok x.
Proof.
  intros Hw%reachable_wf Hrec.
  destruct (session w !! meta_key op_id) as [x|] eqn:Hx.
  - exists x. split; [done|]. by apply (meta_lookup_ok w op_id x).
  - destruct Hrec. by apply record_None.
Qed.

(** C6: on an id with no metadata record the three calls return False,
    raise nothing and leave the whole world as it was; on an id with a
    metadata record they return True. *)
Theorem control_found_or_not (w : world) (op_id : string) :
  reachable w →
  (record (meta_key op_id) w = None →
     pause_operation op_id w = (inr false, w)
     ∧ resume_operation op_id w = (inr false, w)
     ∧ cancel_operation op_id w = (inr false, w))
  ∧ (record (meta_key op_id) w ≠ None →
     (∃ w', pause_operation op_id w = (inr true, w'))
     ∧ (∃ w', resume_operation op_id w = (inr true, w'))
     ∧ (∃ w', cancel_operation op_id w = (inr true, w'))).
Proof.
  intros Hw. split.
  - intros Hnone%record_None.
    split_and!; [apply (control_not_found Pause)
                |apply (control_not_found Resume)
                |apply (control_not_found Cancel)]; done.
  - intros Hsome. destruct (record_started w op_id Hw Hsome) as (x & Hx & Hok).
    split_and!;
      [destruct (control_found Pause op_id x w Hx Hok) as (d & _ & _ & _ & _ & H)
      |destruct (control_found Resume op_id x w Hx Hok) as (d & _ & _ & _ & _ & H)
      |destruct (control_found Cancel op_id x w Hx Hok) as (d & _ & _ & _ & _ & H)];
      eexists; exact H.
Qed.

Lemma control_found_or_not_witness :
  (record (meta_key "no-such-id") demo_world = None
   ∧ pause_operation "no-such-id" demo_world = (inr false, demo_world)
   ∧ resume_operation "no-such-id" demo_world = (inr false, demo_world)
   ∧ cancel_operation "no-such-id" demo_world = (inr false, demo_world))
  ∧ (record (meta_key demo_id) demo_world ≠ None
     ∧ (∃ w', pause_operation demo_id demo_world = (inr true, w'))
     ∧ (∃ w', resume_operation demo_id demo_world = (inr true, w'))
     ∧ (∃ w', cancel_operation demo_id demo_world = (inr true, w'))).
Proof.
  assert (H1 : record (meta_key "no-such-id") demo_world = None)
    by (vm_compute; reflexivity).
  assert (H2 : record (meta_key demo_id) demo_world ≠ None)
    by (vm_compute; discriminate).
  split; (split; [done|]).
  - by apply (control_found_or_not demo_world "no-such-id" demo_reachable).
  - by apply (control_found_or_not demo_world demo_id demo_reachable).
Defined.

(** What a call does to the world when the metadata record is there: the
    status is set in the record read, and nothing else is written. *)
Lemma control_effect c op_id w :
  reachable w → record (meta_key op_id) w ≠ None →
  ∃ d w',
    record (meta_key op_id) w = Some (PDict d)
    ∧ is_Some (d !! "status")
    ∧ control_operation c op_id w = (inr true, w')
    ∧ record (meta_key op_id) w'
      = Some (PDict (<["status" := PStr (control_status c)]> d))
    ∧ (∀ k, k ≠ meta_key op_id → session w' !! k = session w !! k)
    ∧ (d !! "status" = Some (PStr (control_status c)) →
       all (session w') = all (session w))
    ∧ TASKS w' = TASKS w ∧ in_flight w' = in_flight w ∧ clock w' = clock w.
Proof.
  intros Hw Hsome. destruct (record_started w op_id Hw Hsome) as (x & Hx & Hok).
  destruct (control_found c op_id x w Hx Hok) as (d & Hread & Hs & Hn & Hv & Hc).
  exists d. eexists. split_and!; [|done|exact Hc|..]; try done.
  - unfold record. rewrite Hx. unfold read in Hread. rewrite Hx in Hread.
    cbn [fmap option_fmap option_map]. by rewrite Hread.
  - unfold record, set_metrics, set_session, write. cbn [session].
    rewrite lookup_insert_eq. cbn [fmap option_fmap option_map value load].
    rewrite json_loads_dumps; [done|]. by apply native_dict_insert.
  - intros k Hne. unfold set_metrics, set_session, write. cbn [session].
    by rewrite lookup_insert_ne.
  - intros Hst. unfold set_metrics, set_session, write, all. cbn [session].
    rewrite fmap_insert. apply insert_id. rewrite lookup_fmap, Hx.
    cbn [fmap option_fmap option_map value load].
    rewrite json_loads_dumps by (by apply native_dict_insert).
    rewrite insert_id by done. rewrite Hv. cbn [load].
    by rewrite json_loads_dumps.
Qed.

(** C7: a second pause, whenever it comes, returns True again and leaves
    every stored value as the first pause left it; a resume of an operation
    whose status is running returns True and leaves every stored value as
    it was. *)
Theorem pause_resume_idempotent (w : world) (op_id : string) :
  reachable w → record (meta_key op_id) w ≠ None →
  (∃ w1, pause_operation op_id w = (inr true, w1)
     ∧ status op_id w1 = Some (PStr "paused")
     ∧ ∀ dt, ∃ w2,
         pause_operation op_id (set_clock (Z.add dt) w1) = (inr true, w2)
         ∧ record (meta_key op_id) w2 = record (meta_key op_id) w1
         ∧ all (session w2) = all (session w1))
  ∧ (status op_id w = Some (PStr "running") →
     ∃ w3, resume_operation op_id w = (inr true, w3)
       ∧ record (meta_key op_id) w3 = record (meta_key op_id) w
       ∧ all (session w3) = all (session w)).
Proof.
  intros Hw Hsome. split.
  - destruct (record_started w op_id Hw Hsome) as (x & Hx & Hok).
    destruct (control_found Pause op_id x w Hx Hok)
      as (d & Hread & Hs & Hn & Hv & Hc).
    eexists. split; [exact Hc|]. split.
    + unfold status, field, record, set_metrics, set_session, write.
      cbn [session]. rewrite lookup_insert_eq.
      cbn [fmap option_fmap option_map value load].
      rewrite json_loads_dumps by (by apply native_dict_insert).
      by rewrite lookup_insert_eq.
    + intros dt.
      set (w1 := set_metrics _ _).
      assert (Hx1 : session (set_clock (Z.add dt) w1) !! meta_key op_id
                    = Some (Row (Doc (json_dumps
                        (PDict (<["status" := PStr "paused"]> d)))) (clock w))).
      { unfold w1, set_clock, set_metrics, set_session, write. cbn [session].
        by rewrite lookup_insert_eq. }
      assert (Hok1 : meta_row_ok (Row (Doc (json_dumps
                        (PDict (<["status" := PStr "paused"]> d)))) (clock w))).
      { apply meta_row_written. rewrite lookup_insert_eq. by eexists. }
      destruct (control_found Pause op_id _ _ Hx1 Hok1)
        as (d1 & Hread1 & Hs1 & Hn1 & Hv1 & Hc1).
      eexists. split; [exact Hc1|].
      assert (Hd1 : d1 = <["status" := PStr "paused"]> d).
      { unfold read in Hread1. rewrite Hx1 in Hread1. cbn [value load] in Hread1.
        rewrite json_loads_dumps in Hread1 by (by apply native_dict_insert).
        by injection Hread1 as <-. }
      subst d1. rewrite insert_insert_eq.
      assert (Hall : ∀ now,
        all (write now (meta_key op_id)
               (PDict (<["status" := PStr "paused"]> d)) (session w1))
        = all (session w1)).
      { intros now. unfold all, write. rewrite fmap_insert. apply insert_id.
        unfold w1, set_metrics, set_session, write. cbn [session].
        rewrite lookup_fmap, lookup_insert_eq. done. }
      split.
      * unfold record, set_metrics, set_session, set_clock. cbn [session clock].
        pose proof (Hall (dt + clock w1)%Z) as Ha.
        apply (f_equal (λ m, m !! meta_key op_id)) in Ha.
        unfold all in Ha. by rewrite !lookup_fmap in Ha.
      * unfold set_metrics, set_session, set_clock. cbn [session clock].
        apply Hall.
  - intros Hst.
    destruct (control_effect Resume op_id w Hw Hsome)
      as (d & w3 & Hrec & _ & Hc & Hrec3 & _ & Hall & _).
    assert (Hd : d !! "status" = Some (PStr "running")).
    { unfold status, field in Hst. by rewrite Hrec in Hst. }
    exists w3. split; [exact Hc|]. split; [|by apply Hall].
    rewrite Hrec3, Hrec. cbn. by rewrite insert_id.
Qed.

End control_claims.

(** ** The moves of a runner thread, point by point *)

Section runner_moves.
Import Json SQLiteSession Manager.

Lemma run_at_boundary w u r (d0 : gmap string pyval) :
  r_at r = AtBoundary →
  read (meta_key u) (PDict ∅) (session w) = PDict d0 →
  run u r w
  = set_TASKS
      (insert u
         (Runner (r_duration r) (r_i r) (PDict d0)
            (if py_eq_str (default PNone (d0 !! "status")) "paused"
             then Paused else Working))) w.
Proof.
  intros Hat Hread. unfold run, _simulate_task. rewrite Hat. unfold_M.
  rewrite Hread. cbn [py_get]. by destruct (py_eq_str _ "paused").
Qed.

Lemma run_paused w u r (d0 : gmap string pyval) :
  r_at r = Paused →
  read (meta_key u) (PDict ∅) (session w) = PDict d0 →
  run u r w
  = set_TASKS
      (insert u
         (Runner (r_duration r) (r_i r) (PDict d0)
            (if py_eq_str (default PNone (d0 !! "status")) "running"
             then Working
             else if py_eq_str (default PNone (d0 !! "status")) "cancelled"
             then Cancelling else Paused))) w.
Proof.
  intros Hat Hread. unfold run, _simulate_task. rewrite Hat. unfold_M.
  rewrite Hread. cbn [py_get].
  destruct (py_eq_str _ "running"); [done|].
  by destruct (py_eq_str _ "cancelled").
Qed.

Lemma run_cancelling w u r :
  r_at r = Cancelling →
  run u r w
  = World
      (write (clock w) (result_key u)
         (PDict {[ "status" := PStr "cancelled" ]}) (session w))
      (Metrics.inc_counter "ops_cancelled_total" (metrics w)) (clock w)
      (<[u := Runner (r_duration r) (r_i r) (r_st r) Returned]> (TASKS w))
      (in_flight w).
Proof. intros Hat. unfold run, _simulate_task. by rewrite Hat. Qed.

Lemma run_working w u r :
  r_at r = Working →
  run u r w
  = World
      (write (clock w) (progress_key u)
         (PDict {[ "step" := PInt (r_i r + 1); "total" := PInt (steps r) ]})
         (session w))
      (Metrics.inc_counter "ops_heartbeat_total" (metrics w)) (clock w)
      (<[u := Runner (r_duration r) (r_i r + 1) (r_st r)
               (if (r_i r + 1 <? steps r)%Z then AtBoundary else Finishing)]>
         (TASKS w))
      (in_flight w).
Proof.
  intros Hat. unfold run, _simulate_task. rewrite Hat. unfold_M.
  by destruct (r_i r + 1 <? steps r)%Z.
Qed.

Lemma run_finishing w u r :
  r_at r = Finishing →
  run u r w
  = World
      (write (clock w) (result_key u)
         (PDict {[ "status" := PStr "finished";
                   "completed_at" := PInt (clock w) ]}) (session w))
      (metrics w) (clock w)
      (<[u := Runner (r_duration r) (r_i r) (r_st r) Finalising]> (TASKS w))
      (in_flight w).
Proof. intros Hat. unfold run, _simulate_task. by rewrite Hat. Qed.

Lemma run_finalising w u r :
  r_at r = Finalising →
  run u r w
  = set_TASKS
      (insert u
         (Runner (r_duration r) (r_i r) (r_st r)
            (Marking (read (meta_key u) (PDict ∅) (session w))))) w.
Proof. intros Hat. unfold run, _simulate_task. by rewrite Hat. Qed.

Lemma run_marking w u r (dm : gmap string pyval) :
  r_at r = Marking (PDict dm) →
  run u r w
  = World
      (write (clock w) (meta_key u)
         (PDict (<["status" := PStr "finished"]> dm)) (session w))
      (Metrics.inc_counter "ops_finished_total" (metrics w)) (clock w)
      (<[u := Runner (r_duration r) (r_i r) (r_st r) Done]> (TASKS w))
      (in_flight w).
Proof. intros Hat. unfold run, _simulate_task. by rewrite Hat. Qed.

(** The one key a move writes, if any. *)
Lemma run_frame w u r k :
  wf w → TASKS w !! u = Some r →
  match r_at r with
  | Cancelling | Finishing => k ≠ result_key u
  | Working => k ≠ progress_key u
  | Marking _ => k ≠ meta_key u
  | _ => True
  end →
  session (run u r w) !! k = session w !! k.
Proof.
  intros Hwf Hr Hk.
  destruct (read_meta_started w u (PDict ∅) Hwf) as (d0 & Hread & _);
    [by eexists|].
  destruct (wf_runner w Hwf u r Hr) as (Hc & Hl & _).
  destruct (r_at r) eqn:Hat.
  - by rewrite (run_at_boundary w u r d0).
  - by rewrite (run_paused w u r d0).
  - rewrite run_cancelling by done. unfold write. cbn [session].
    by rewrite lookup_insert_ne.
  - rewrite run_working by done. unfold write. cbn [session].
    by rewrite lookup_insert_ne.
  - rewrite run_finishing by done. unfold write. cbn [session].
    by rewrite lookup_insert_ne.
  - by rewrite run_finalising.
  - unfold locals_ok in Hl. rewrite Hat in Hl. destruct Hl as (dm & -> & _).
    rewrite (run_marking w u r dm) by done. unfold write. cbn [session].
    by rewrite lookup_insert_ne.
  - unfold run, _simulate_task. by rewrite Hat.
  - unfold run, _simulate_task. by rewrite Hat.
  - unfold run, _simulate_task. by rewrite Hat.
Qed.

End runner_moves.

(** ** The lifecycle along the interleavings *)

Section lifecycle.
Import Json SQLiteSession Manager.

Lemma status_frame u w w' :
  session w' !! meta_key u = session w !! meta_key u →
  status u w' = status u w.
Proof. intros H. unfold status, field, record. by rewrite H. Qed.

Lemma status_after_write now u (d : gmap string pyval) s t m c T fl :
  status u
    (World (write now (meta_key u) (PDict (<["status" := PStr s]> d)) t)
       m c T fl)
  = Some (PStr s).
Proof.
  unfold status, field, record, write. cbn [session].
  rewrite lookup_insert_eq. cbn. by rewrite lookup_fmap, lookup_fmap, lookup_insert_eq.
Qed.

Lemma start_frame u d md w k :
  ¬ owns u k → session (start_operation u d md w).2 !! k = session w !! k.
Proof.
  intros Ho. unfold start_operation. unfold_M. unfold thread_start. unfold_M.
  unfold write. rewrite !lookup_insert_ne; [done| |];
    intros <-; apply Ho; unfold owns; auto.
Qed.

Lemma status_started w u x :
  wf w → status u w = Some x → is_Some (TASKS w !! u).
Proof.
  intros Hwf Hst. unfold status, field, record in Hst.
  destruct (session w !! meta_key u) as [y|] eqn:Hy; [|done].
  by destruct (meta_lookup_ok w u y Hwf Hy).
Qed.

(** What a step does to the status of an operation. *)
Lemma status_step w w' a u x :
  reachable w → step a w = Some w' → status u w = Some x →
  status u w' = Some x
  ∨ (∃ n cl, a = Leave n ∧ in_flight w !! n = Some cl ∧ c_op_id cl = u
       ∧ status u w' = Some (PStr (control_status (c_kind cl))))
  ∨ (∃ r meta, a = Run u ∧ TASKS w !! u = Some r ∧ r_at r = Marking meta
       ∧ status u w' = Some (PStr "finished")).
Proof.
  intros Hwf%reachable_wf Hstep Hst.
  pose proof (status_started w u x Hwf Hst) as Hu.
  destruct a as [dt|u' d md|c u'|n|u']; simpl in Hstep.
  - destruct (0 <=? dt)%Z; [|done]. injection Hstep as <-. by left.
  - destruct (uuid_shaped u'); [|done].
    destruct (bool_decide (TASKS w !! u' = None)) eqn:Hf; [|done].
    apply bool_decide_eq_true in Hf. injection Hstep as <-. left.
    rewrite <- Hst. apply status_frame, start_frame.
    intros Ho%owns_meta. subst u'. rewrite Hf in Hu. by destruct Hu.
  - injection Hstep as <-. left. rewrite <- Hst. apply status_frame.
    unfold enter. by destruct (negb _).
  - destruct (in_flight w !! n) as [cl|] eqn:Hn; [|done].
    injection Hstep as <-.
    assert (Hin : cl ∈ in_flight w) by (by eapply list_elem_of_lookup_2).
    destruct (wf_calls w Hwf cl Hin) as [_ (dm & Hdm & _)].
    destruct cl as [c u' meta]. simpl in Hdm. subst meta.
    rewrite leave_dict. unfold_M.
    destruct (decide (u' = u)) as [->|Hne].
    + right. left. exists n, (Call c u (PDict dm)). split_and!; try done.
      apply status_after_write.
    + left. rewrite <- Hst. apply status_frame. cbn [session]. unfold write.
      rewrite lookup_insert_ne; [done|]. intros H%meta_key_inj. done.
  - destruct (TASKS w !! u') as [r|] eqn:Hr; [|done].
    destruct (alive (r_at r)) eqn:Ha; [|done]. injection Hstep as <-.
    assert (Hframe : session (run u' r w) !! meta_key u
                     = session w !! meta_key u → status u (run u' r w) = Some x)
      by (intros H; rewrite <- Hst; by apply status_frame).
    destruct (r_at r) eqn:Hat; try done.
    + left. apply Hframe, run_frame; try done. by rewrite Hat.
    + left. apply Hframe, run_frame; try done. by rewrite Hat.
    + left. apply Hframe, run_frame; try done. rewrite Hat.
      apply meta_result_ne.
    + left. apply Hframe, run_frame; try done. rewrite Hat.
      apply meta_progress_ne.
    + left. apply Hframe, run_frame; try done. rewrite Hat.
      apply meta_result_ne.
    + left. apply Hframe, run_frame; try done. by rewrite Hat.
    + destruct (decide (u' = u)) as [->|Hne].
      * right. right. exists r, meta. split_and!; try done.
        destruct (wf_runner w Hwf u r Hr) as (_ & Hl & _).
        unfold locals_ok in Hl. rewrite Hat in Hl.
        destruct Hl as (dm & -> & _).
        rewrite (run_marking w u r dm) by done. apply status_after_write.
      * left. apply Hframe, run_frame; try done. rewrite Hat.
        intros H%meta_key_inj. done.
Qed.


(** What a move does to the locals of its thread. *)
Lemma run_runner w u r :
  wf w → TASKS w !! u = Some r → alive (r_at r) = true →
  ∃ r', TASKS (run u r w) = <[u := r']> (TASKS w)
    ∧ r_duration r' = r_duration r
    ∧ (r_i r' = r_i r ∨ (r_at r = Working ∧ r_i r' = (r_i r + 1)%Z)).
Proof.
  intros Hwf Hr Ha.
  destruct (read_meta_started w u (PDict ∅) Hwf) as (d0 & Hread & _);
    [by eexists|].
  destruct (wf_runner w Hwf u r Hr) as (_ & Hl & _).
  destruct (r_at r) eqn:Hat; try done.
  - rewrite (run_at_boundary w u r d0) by done. eexists. split; [done|]. auto.
  - rewrite (run_paused w u r d0) by done. eexists. split; [done|]. auto.
  - rewrite run_cancelling by done. eexists. split; [done|]. auto.
  - rewrite run_working by done. eexists. split; [done|]. auto.
  - rewrite run_finishing by done. eexists. split; [done|]. auto.
  - rewrite run_finalising by done. eexists. split; [done|]. auto.
  - unfold locals_ok in Hl. rewrite Hat in Hl. destruct Hl as (dm & -> & _).
    rewrite (run_marking w u r dm) by done. eexists. split; [done|]. auto.
Qed.

Lemma start_tasks u d md w :
  TASKS (start_operation u d md w).2
  = <[u := Runner d 0 PNone AtBoundary]> (TASKS w).
Proof. reflexivity. Qed.

(** What a step does to the locals of a thread. *)
Lemma step_runner w w' a u r :
  wf w → step a w = Some w' → TASKS w !! u = Some r →
  ∃ r', TASKS w' !! u = Some r'
    ∧ r_duration r' = r_duration r
    ∧ (r_i r' = r_i r
       ∨ (a = Run u ∧ r_at r = Working ∧ r_i r' = (r_i r + 1)%Z)).
Proof.
  intros Hwf Hstep Hr.
  destruct a as [dt|u' d md|c u'|n|u']; unfold step in Hstep.
  - destruct (0 <=? dt)%Z; [|done]. injection Hstep as <-. exists r. auto.
  - destruct (uuid_shaped u'); [|done].
    destruct (bool_decide (TASKS w !! u' = None)) eqn:Hf; [|done].
    apply bool_decide_eq_true in Hf. lazy beta iota delta [andb] in Hstep.
    assert (w' = (start_operation u' d md w).2) as -> by congruence.
    exists r. rewrite start_tasks. rewrite lookup_insert_ne; [auto|].
    intros ->. congruence.
  - injection Hstep as <-. exists r. unfold enter.
    destruct (negb _); auto.
  - destruct (in_flight w !! n) as [cl|] eqn:Hn; [|done].
    injection Hstep as <-. exists r. split; [|auto].
    unfold leave. unfold_M. by destruct (py_setitem _ _ _).
  - destruct (TASKS w !! u') as [r0|] eqn:Hr0; [|done].
    destruct (alive (r_at r0)) eqn:Ha; [|done].
    assert (w' = run u' r0 w) as -> by congruence.
    destruct (run_runner w u' r0 Hwf Hr0 Ha) as (r' & Ht & Hd & Hi).
    rewrite Ht. destruct (decide (u' = u)) as [->|Hne].
    + rewrite lookup_insert_eq. exists r'.
      assert (r0 = r) as -> by congruence.
      split_and!; try done. destruct Hi as [?|[? ?]]; auto.
    + rewrite lookup_insert_ne by done. exists r. auto.
Qed.

Lemma progress_started w u r :
  wf w → TASKS w !! u = Some r →
  progress u w
  = Some (r_i r, if (r_i r =? 0)%Z then r_duration r else steps r)
  ∧ (0 ≤ r_i r ≤ steps r)%Z.
Proof.
  intros Hwf Hr. destruct (wf_runner w Hwf u r Hr) as (Hc & _ & Hp & _).
  split.
  - unfold progress, field, record. unfold progress_ok in Hp. rewrite Hp.
    rewrite lookup_insert_eq.
    rewrite lookup_insert_ne by done. by rewrite lookup_singleton_eq.
  - pose proof (steps_pos r). unfold counter_ok in Hc.
    destruct (r_at r); try done; lia.
Qed.

(** C3, as amended: the stored step never goes down; it does not exceed
    the stored total when the operation was started with a duration that
    is not negative; and it goes up, by one, only in a move of the
    operation's own runner from the point past its pause test, that is
    after a read of the metadata that did not show the status paused. *)
Theorem progress_step_advances (w : world) (op_id : string) (r : runner) :
  reachable w → TASKS w !! op_id = Some r →
  ∃ k t, progress op_id w = Some (k, t)
    ∧ ((0 ≤ r_duration r)%Z → (0 ≤ k ≤ t)%Z)
    ∧ ∀ a w', step a w = Some w' →
        ∃ k' t', progress op_id w' = Some (k', t')
          ∧ (k ≤ k')%Z
          ∧ ((k < k')%Z →
             a = Run op_id ∧ r_at r = Working ∧ k' = (k + 1)%Z
             ∧ saw r "paused" = false).
Proof.
  intros Hw Hr. pose proof (reachable_wf w Hw) as Hwf.
  destruct (progress_started w op_id r Hwf Hr) as [Hp Hi].
  eexists _, _. split; [exact Hp|]. split.
  - intros Hd. unfold steps in *. destruct (r_i r =? 0)%Z eqn:E; lia.
  - intros a w' Hstep.
    destruct (step_runner w w' a op_id r Hwf Hstep Hr) as (r' & Hr' & Hd & Hi').
    pose proof (wf_step a w w' Hwf Hstep) as Hwf'.
    destruct (progress_started w' op_id r' Hwf' Hr') as [Hp' _].
    eexists _, _. split; [exact Hp'|].
    destruct Hi' as [->|(-> & Hat & ->)]; [split; [lia|lia]|].
    split; [lia|]. intros _. split_and!; try done.
    destruct (wf_runner w Hwf op_id r Hr) as (_ & Hl & _).
    unfold locals_ok in Hl. rewrite Hat in Hl. destruct Hl as (v & Hv & Hne).
    unfold saw. by rewrite Hv.
Qed.


Lemma record_result_ok w u r :
  wf w → TASKS w !! u = Some r →
  match r_at r with
  | Finalising | Marking _ | Done =>
      ∃ now, record (result_key u) w
             = Some (PDict {[ "status" := PStr "finished";
                              "completed_at" := PInt now ]})
  | Returned =>
      record (result_key u) w = Some (PDict {[ "status" := PStr "cancelled" ]})
      ∧ saw r "cancelled" = true
  | _ => record (result_key u) w = None
  end.
Proof.
  intros Hwf Hr. destruct (wf_runner w Hwf u r Hr) as (Hc & Hl & _ & Hres).
  unfold result_ok, locals_ok, counter_ok, record in *.
  destruct (r_at r); try done.
  all: by rewrite Hres.
Qed.

(** C4, as amended: a Result record is there exactly when the runner of
    the operation stands behind one of its two Result writes. It says
    cancelled when the runner left through the pause loop, where it had
    read the status cancelled, and finished, with the completion time, when
    the runner came out of its loop. *)
Theorem result_follows_runner (w : world) (op_id : string) :
  reachable w →
  (TASKS w !! op_id = None → record (result_key op_id) w = None)
  ∧ ∀ r, TASKS w !! op_id = Some r →
      (record (result_key op_id) w ≠ None ↔ result_written (r_at r) = true)
      ∧ (r_at r = Returned →
         record (result_key op_id) w
         = Some (PDict {[ "status" := PStr "cancelled" ]})
         ∧ saw r "cancelled" = true)
      ∧ (result_written (r_at r) = true → r_at r ≠ Returned →
         ∃ now, record (result_key op_id) w
                = Some (PDict {[ "status" := PStr "finished";
                                 "completed_at" := PInt now ]})).
Proof.
  intros Hw%reachable_wf. split.
  - intros Hnone. apply record_None.
    destruct (session w !! result_key op_id) as [x|] eqn:Hx; [|done].
    destruct (wf_keys w Hw (result_key op_id)) as (u & Hu & Ho); [by eexists|].
    apply owns_result in Ho as ->. rewrite Hnone in Hu. by destruct Hu.
  - intros r Hr. pose proof (record_result_ok w op_id r Hw Hr) as H.
    destruct (wf_runner w Hw op_id r Hr) as (Hc & _).
    unfold counter_ok in Hc.
    destruct (r_at r) eqn:Hat; cbn; split_and!; try done;
      try (by rewrite H); try (destruct H as [now H]; rewrite H; try done).
    all: try (by eexists).
    all: try (by destruct H as [-> _]).
Qed.

End lifecycle.

(** ** Listing the operations *)

Section listing.
Import Json SQLiteSession Manager.

Lemma app_cons c (a b : string) : String c a +:+ b = String c (a +:+ b).
Proof. reflexivity. Qed.

Lemma count_app c (a b : string) : count c (a +:+ b) = count c a + count c b.
Proof.
  induction a as [|x a IH]; [done|]. rewrite app_cons. simpl. rewrite IH. lia.
Qed.

Lemma split_cons_ne c x (k : string) :
  Ascii.eqb x c = false →
  split c (String x k)
  = String x (hd EmptyString (split c k)) :: tl (split c k).
Proof.
  intros H. simpl. rewrite H. by destruct (split c k).
Qed.

(** A field without separator in front of a separator. *)
Lemma split_field c (a b : string) :
  count c a = 0 → split c (a +:+ String c b) = a :: split c b.
Proof.
  induction a as [|x a IH]; intros Hc.
  - change (EmptyString +:+ String c b) with (String c b). simpl.
    by rewrite Ascii.eqb_refl.
  - rewrite app_cons. simpl in Hc.
    destruct (Ascii.eqb x c) eqn:E; [lia|].
    rewrite split_cons_ne by done. rewrite IH by lia. done.
Qed.

Lemma endswith_app suffix (a : string) : endswith suffix (a +:+ suffix) = true.
Proof.
  induction a as [|x a IH].
  - change (EmptyString +:+ suffix) with suffix.
    destruct suffix; simpl; [done|]. rewrite Ascii.eqb_refl, String.eqb_refl. done.
  - rewrite app_cons. simpl. rewrite IH. apply orb_true_r.
Qed.

Lemma endswith_last suffix k c :
  endswith suffix k = true →
  last (list_ascii_of_string suffix) = Some c →
  last (list_ascii_of_string k) = Some c.
Proof.
  induction k as [|x k IH]; simpl; intros He Hl.
  - rewrite orb_false_r in He. apply String.eqb_eq in He. by subst.
  - apply orb_true_iff in He as [He|He].
    + apply String.eqb_eq in He. by subst.
    + specialize (IH He Hl). destruct (list_ascii_of_string k); [done|].
      done.
Qed.

(** Ids of the shape of a UUID hold no colon. *)
Lemma matches_pattern_no_colon pattern s :
  matches_pattern pattern s = true → count ":" s = 0.
Proof.
  revert s. induction pattern as [|p pattern IH]; intros [|c s] H; try done.
  simpl in H. apply andb_true_iff in H as [Hc Hs]. simpl.
  rewrite (IH s Hs).
  destruct (Ascii.eqb c ":") eqn:E; [|done].
  apply Ascii.eqb_eq in E. subst c. by destruct (Ascii.eqb p "-").
Qed.

Lemma uuid_no_colon u : uuid_shaped u = true → count ":" u = 0.
Proof. apply matches_pattern_no_colon. Qed.

Lemma is_meta_key_meta u : count ":" u = 0 → is_meta_key (meta_key u) = true.
Proof.
  intros Hu. unfold is_meta_key, meta_key.
  apply andb_true_iff; split; [apply andb_true_iff; split|].
  - unfold startswith.
    change ("op:" +:+ u +:+ ":meta")
      with (String "o" (String "p" (String ":" (u +:+ ":meta")))).
    simpl. by destruct (u +:+ ":meta").
  - by rewrite !count_app, Hu.
  - change ("op:" +:+ u +:+ ":meta") with (("op:" +:+ u) +:+ ":meta").
    apply endswith_app.
Qed.

Lemma op_id_of_meta_key u :
  count ":" u = 0 → nth 1 (split ":" (meta_key u)) EmptyString = u.
Proof.
  intros Hu. unfold meta_key.
  change ("op:" +:+ u +:+ ":meta") with ("op" +:+ String ":" (u +:+ ":meta")).
  rewrite split_field by done.
  change (u +:+ ":meta") with (u +:+ String ":" "meta").
  by rewrite split_field.
Qed.

Lemma is_meta_key_progress u : is_meta_key (progress_key u) = false.
Proof.
  unfold is_meta_key. apply andb_false_iff. right.
  destruct (endswith ":meta" (progress_key u)) eqn:E; [|done].
  apply (endswith_last _ _ "a"%char) in E; [|done].
  unfold progress_key in E.
  change ":progress" with (":progres" +:+ "s") in E.
  by rewrite key_last in E.
Qed.

Lemma is_meta_key_result u : is_meta_key (result_key u) = false.
Proof.
  unfold is_meta_key. apply andb_false_iff. right.
  destruct (endswith ":meta" (result_key u)) eqn:E; [|done].
  apply (endswith_last _ _ "a"%char) in E; [|done].
  unfold result_key in E.
  change ":result" with (":resul" +:+ "t") in E.
  by rewrite key_last in E.
Qed.


(** The fold of [list_operations] over a map whose meta-shaped keys are
    the metadata keys of colon-free ids: every such id gets the entry made
    of its own three records. *)
Lemma list_operations_fold (t : gmap string row) (m : gmap string pyval) :
  (∀ k, is_Some (m !! k) → is_meta_key k = true →
        ∃ u0, k = meta_key u0 ∧ count ":" u0 = 0) →
  ∀ u, count ":" u = 0 →
    map_fold
      (λ k v (ops : gmap string (gmap string pyval)),
         if is_meta_key k then
           let op_id := nth 1 (split ":" k) EmptyString in
           let entry := default ∅ (ops !! op_id) in
           let entry := <["meta" := v]> entry in
           let entry := <["progress" := read (progress_key op_id) PNone t]> entry in
           let entry := <["result" := read (result_key op_id) PNone t]> entry in
           <[op_id := entry]> ops
         else ops)
      ∅ m !! u
    = (λ v, <["result" := read (result_key u) PNone t]>
              (<["progress" := read (progress_key u) PNone t]>
                 (<["meta" := v]> ∅))) <$> m !! meta_key u.
Proof.
  apply (map_fold_weak_ind
    (λ (ops : gmap string (gmap string pyval)) (m : gmap string pyval),
       (∀ k, is_Some (m !! k) → is_meta_key k = true →
             ∃ u0, k = meta_key u0 ∧ count ":" u0 = 0) →
       ∀ u, count ":" u = 0 →
         ops !! u
         = (λ v, <["result" := read (result_key u) PNone t]>
                   (<["progress" := read (progress_key u) PNone t]>
                      (<["meta" := v]> ∅))) <$> m !! meta_key u)).
  - intros _ u _. by rewrite !lookup_empty.
  - intros k v m' ops Hk IH Hkeys u Hu.
    assert (Hkeys' : ∀ k0, is_Some (m' !! k0) → is_meta_key k0 = true →
              ∃ u0, k0 = meta_key u0 ∧ count ":" u0 = 0).
    { intros k0 Hk0. apply Hkeys. apply lookup_insert_is_Some'. by right. }
    specialize (IH Hkeys').
    destruct (is_meta_key k) eqn:Hmk.
    + destruct (Hkeys k) as (u0 & -> & Hu0);
        [by rewrite lookup_insert_eq|done|].
      cbn zeta. rewrite op_id_of_meta_key by done.
      rewrite (IH u0 Hu0), Hk. cbn [fmap option_fmap option_map default].
      destruct (decide (u0 = u)) as [->|Hne].
      * by rewrite !lookup_insert_eq.
      * rewrite lookup_insert_ne by done.
        rewrite lookup_insert_ne by (intros H%meta_key_inj; done).
        by apply IH.
    + rewrite lookup_insert_ne; [by apply IH|].
      intros ->. by rewrite is_meta_key_meta in Hmk.
Qed.

Lemma list_operations_started w u :
  wf w → is_Some (TASKS w !! u) →
  list_operations w !! u
  = Some (<["result" := read (result_key u) PNone (session w)]>
            (<["progress" := read (progress_key u) PNone (session w)]>
               (<["meta" := read (meta_key u) PNone (session w)]> ∅))).
Proof.
  intros Hwf Hu. unfold list_operations. cbn zeta.
  rewrite (list_operations_fold (session w) (all (session w))).
  - unfold all, read. rewrite lookup_fmap.
    destruct (wf_meta w Hwf u Hu) as (x & -> & _). done.
  - intros k Hk Hmk. unfold all in Hk. rewrite lookup_fmap in Hk.
    apply fmap_is_Some in Hk.
    destruct (wf_keys w Hwf k Hk) as (u0 & Hu0 & [->|[->| ->]]).
    + exists u0. split; [done|]. apply uuid_no_colon, (wf_ids w Hwf u0 Hu0).
    + by rewrite is_meta_key_progress in Hmk.
    + by rewrite is_meta_key_result in Hmk.
  - apply uuid_no_colon, (wf_ids w Hwf u Hu).
Qed.


Lemma read_record key default w :
  read key default (session w) = from_option id default (record key w).
Proof. unfold read, record. by destruct (session w !! key). Qed.



End listing.

(** ** The claims on the lifecycle, and concrete runs *)

Section scenarios.
Import Json SQLiteSession Manager.

Lemma cancelled_reachable : reachable cancelled_world.
Proof. apply reachable_from; [apply reachable_init|run_trace]. Qed.

Lemma paused_reachable : reachable paused_world.
Proof. apply reachable_from; [apply reachable_init|run_trace]. Qed.

(** C1 fails on the code: an operation started for two steps is cancelled
    before its runner moves. The runner reads the status cancelled at both
    boundaries, tests it against paused only, does both units of work, and
    finishes: the Result says finished and the status is overwritten. *)
Theorem cancel_while_running_is_ignored :
  ∃ w2 w3,
    status demo_id cancelled_world = Some (PStr "cancelled")
    ∧ (r_at <$> TASKS cancelled_world !! demo_id) = Some AtBoundary
    ∧ exec [Run demo_id; Run demo_id] cancelled_world = Some w2
    ∧ status demo_id w2 = Some (PStr "cancelled")
    ∧ progress demo_id w2 = Some (1, 2)%Z
    ∧ record (result_key demo_id) w2 = None
    ∧ exec (repeat (Run demo_id) 5) w2 = Some w3
    ∧ progress demo_id w3 = Some (2, 2)%Z
    ∧ field (result_key demo_id) "status" w3 = Some (PStr "finished")
    ∧ status demo_id w3 = Some (PStr "finished")
    ∧ (r_at <$> TASKS w3 !! demo_id) = Some Done.
Proof.
  exists (default init (exec [Run demo_id; Run demo_id] cancelled_world)).
  exists (default init
            (exec (repeat (Run demo_id) 5)
               (default init
                  (exec [Run demo_id; Run demo_id] cancelled_world)))).
  repeat apply conj; try (apply exec_default); run_trace.
Qed.

(** The same in general: at a boundary, a runner that reads the status
    cancelled goes on to its unit of work. *)
Lemma boundary_ignores_cancelled w u r :
  wf w → TASKS w !! u = Some r → r_at r = AtBoundary →
  status u w = Some (PStr "cancelled") →
  session (run u r w) = session w
  ∧ (r_at <$> TASKS (run u r w) !! u) = Some Working.
Proof.
  intros Hwf Hr Hat Hst.
  destruct (read_meta_started w u (PDict ∅) Hwf) as (d0 & Hread & _);
    [by eexists|].
  rewrite (run_at_boundary w u r d0) by done. split; [done|].
  unfold set_TASKS. cbn [TASKS]. rewrite lookup_insert_eq. cbn.
  unfold status, field in Hst. rewrite read_record in Hread.
  destruct (record (meta_key u) w) as [v|]; [|done]. cbn in Hread. subst v.
  by rewrite Hst.
Qed.

(** C2, as amended: the status of an operation changes only when a
    control call writes it (to paused, running or cancelled, according to
    the call) or when the operation's runner writes it back as finished at
    the end of its function; and a control call on an existing operation
    is accepted and sets its status whatever the status was. *)
Theorem status_changes (w w' : world) (a : action) (op_id : string) (x : pyval) :
  reachable w → step a w = Some w' → status op_id w = Some x →
  (status op_id w' = Some x
   ∨ (∃ n cl, a = Leave n ∧ in_flight w !! n = Some cl ∧ c_op_id cl = op_id
        ∧ status op_id w' = Some (PStr (control_status (c_kind cl))))
   ∨ (∃ r meta, a = Run op_id ∧ TASKS w !! op_id = Some r
        ∧ r_at r = Marking meta
        ∧ status op_id w' = Some (PStr "finished")))
  ∧ ∀ c, ∃ w'', control_operation c op_id w = (inr true, w'')
       ∧ status op_id w'' = Some (PStr (control_status c)).
Proof.
  intros Hw Hstep Hst. split; [by eapply status_step|].
  intros c.
  assert (Hsome : record (meta_key op_id) w ≠ None).
  { unfold status, field in Hst. by destruct (record (meta_key op_id) w). }
  destruct (control_effect c op_id w Hw Hsome)
    as (d & w'' & _ & _ & Hc & Hrec & _).
  exists w''. split; [done|].
  unfold status, field. rewrite Hrec. by rewrite lookup_insert_eq.
Qed.

Lemma status_changes_witness :
  reachable resuming_world
  ∧ step (Leave 0) resuming_world = Some resumed_world
  ∧ status demo_id resuming_world = Some (PStr "cancelled")
  ∧ (status demo_id resumed_world = Some (PStr "cancelled")
     ∨ (∃ n cl, Leave 0 = Leave n ∧ in_flight resuming_world !! n = Some cl
          ∧ c_op_id cl = demo_id
          ∧ status demo_id resumed_world
            = Some (PStr (control_status (c_kind cl))))
     ∨ (∃ r meta, Leave 0 = Run demo_id
          ∧ TASKS resuming_world !! demo_id = Some r
          ∧ r_at r = Marking meta
          ∧ status demo_id resumed_world = Some (PStr "finished")))
  ∧ ∀ c, ∃ w'', control_operation c demo_id resuming_world = (inr true, w'')
       ∧ status demo_id w'' = Some (PStr (control_status c)).
Proof.
  assert (H1 : reachable resuming_world)
    by (apply reachable_from; [apply cancelled_reachable|run_trace]).
  assert (H2 : step (Leave 0) resuming_world = Some resumed_world)
    by (apply step_default; run_trace).
  assert (H3 : status demo_id resuming_world = Some (PStr "cancelled"))
    by (vm_compute; reflexivity).
  pose proof (status_changes resuming_world resumed_world (Leave 0) demo_id
                (PStr "cancelled") H1 H2 H3) as [Ha Hb].
  repeat apply conj; assumption.
Defined.

(** C2, as stated, fails: a cancelled operation is resumed, and its status
    goes from cancelled back to running. *)
Lemma resume_revives_cancelled :
  reachable cancelled_world
  ∧ status demo_id cancelled_world = Some (PStr "cancelled")
  ∧ exec [Enter Resume demo_id; Leave 0] cancelled_world = Some resumed_world
  ∧ status demo_id resumed_world = Some (PStr "running")
  ∧ fst (resume_operation demo_id cancelled_world) = inr true
  ∧ status demo_id (snd (resume_operation demo_id cancelled_world))
    = Some (PStr "running").
Proof.
  split; [exact cancelled_reachable|].
  split; [run_trace|].
  split; [apply (exec_default [Enter Resume demo_id; Leave 0]); run_trace|].
  repeat apply conj; run_trace.
Qed.

Lemma started_reachable : reachable started_world.
Proof. apply reachable_from; [apply reachable_init|run_trace]. Qed.

Lemma progress_step_advances_witness :
  reachable started_world
  ∧ TASKS started_world !! demo_id = Some (Runner 8 0 PNone AtBoundary)
  ∧ ∃ k t, progress demo_id started_world = Some (k, t)
      ∧ ((0 ≤ 8)%Z → (0 ≤ k ≤ t)%Z)
      ∧ ∀ a w', step a started_world = Some w' →
          ∃ k' t', progress demo_id w' = Some (k', t')
            ∧ (k ≤ k')%Z
            ∧ ((k < k')%Z →
               a = Run demo_id ∧ AtBoundary = Working ∧ k' = (k + 1)%Z
               ∧ saw (Runner 8 0 PNone AtBoundary) "paused" = false).
Proof.
  assert (H2 : TASKS started_world !! demo_id
               = Some (Runner 8 0 PNone AtBoundary))
    by (vm_compute; reflexivity).
  split; [exact started_reachable|]. split; [exact H2|].
  exact (progress_step_advances started_world demo_id
           (Runner 8 0 PNone AtBoundary) started_reachable H2).
Defined.

(** C3, as stated, fails twice. A pause that arrives while the runner is
    in a unit of work does not stop that unit: the step goes from 0 to 1 in
    a world whose status is paused. And an operation started for a negative
    duration has a Progress record whose step, 0, exceeds its total. *)
Lemma step_advances_while_paused :
  reachable paused_world
  ∧ status demo_id paused_world = Some (PStr "paused")
  ∧ progress demo_id paused_world = Some (0, 2)%Z
  ∧ step (Run demo_id) paused_world = Some worked_world
  ∧ progress demo_id worked_world = Some (1, 2)%Z
  ∧ reachable negative_world
  ∧ progress demo_id negative_world = Some (0, -1)%Z.
Proof.
  split; [exact paused_reachable|].
  do 2 (split; [run_trace|]).
  split; [apply step_default; run_trace|].
  split; [run_trace|].
  split; [|run_trace].
  apply reachable_from; [apply reachable_init|run_trace].
Qed.

Lemma result_follows_runner_witness :
  reachable started_world
  ∧ (TASKS started_world !! demo_id = None →
     record (result_key demo_id) started_world = None)
  ∧ ∀ r, TASKS started_world !! demo_id = Some r →
      (record (result_key demo_id) started_world ≠ None
       ↔ result_written (r_at r) = true)
      ∧ (r_at r = Returned →
         record (result_key demo_id) started_world
         = Some (PDict {[ "status" := PStr "cancelled" ]})
         ∧ saw r "cancelled" = true)
      ∧ (result_written (r_at r) = true → r_at r ≠ Returned →
         ∃ now, record (result_key demo_id) started_world
                = Some (PDict {[ "status" := PStr "finished";
                                 "completed_at" := PInt now ]})).
Proof.
  split; [exact started_reachable|].
  exact (result_follows_runner started_world demo_id started_reachable).
Defined.

(** C4, as stated, fails in both directions: after [cancel_operation] the
    status is cancelled and there is no Result yet; and a runner that has
    written its finished Result has not yet set the status, which is still
    running. *)
Lemma cancelled_without_result :
  reachable cancelled_world
  ∧ status demo_id cancelled_world = Some (PStr "cancelled")
  ∧ record (result_key demo_id) cancelled_world = None
  ∧ reachable finishing_world
  ∧ status demo_id finishing_world = Some (PStr "running")
  ∧ field (result_key demo_id) "status" finishing_world
    = Some (PStr "finished").
Proof.
  split; [exact cancelled_reachable|].
  do 2 (split; [run_trace|]).
  split; [apply reachable_from; [apply reachable_init|run_trace]|].
  split; run_trace.
Qed.



Lemma pause_resume_idempotent_witness :
  reachable demo_world
  ∧ record (meta_key demo_id) demo_world ≠ None
  ∧ (∃ w1, pause_operation demo_id demo_world = (inr true, w1)
       ∧ status demo_id w1 = Some (PStr "paused")
       ∧ ∀ dt, ∃ w2,
           pause_operation demo_id (set_clock (Z.add dt) w1) = (inr true, w2)
           ∧ record (meta_key demo_id) w2 = record (meta_key demo_id) w1
           ∧ all (session w2) = all (session w1))
  ∧ status demo_id demo_world = Some (PStr "running")
  ∧ ∃ w3, resume_operation demo_id demo_world = (inr true, w3)
      ∧ record (meta_key demo_id) w3 = record (meta_key demo_id) demo_world
      ∧ all (session w3) = all (session demo_world).
Proof.
  assert (H2 : record (meta_key demo_id) demo_world ≠ None)
    by (vm_compute; discriminate).
  assert (H3 : status demo_id demo_world = Some (PStr "running"))
    by (vm_compute; reflexivity).
  destruct (pause_resume_idempotent demo_world demo_id demo_reachable H2)
    as [Ha Hb].
  split; [exact demo_reachable|]. split; [exact H2|]. split; [exact Ha|].
  split; [exact H3|]. exact (Hb H3).
Defined.

(** C10: a control call on an existing operation writes the metadata
    record with the status replaced and every other field as it was read,
    and touches no other row of the table: the Progress and Result rows
    keep their value and their time stamp. *)
Theorem control_writes_status_only (w : world) (op_id : string) (c : control) :
  reachable w → record (meta_key op_id) w ≠ None →
  ∃ d w',
    record (meta_key op_id) w = Some (PDict d)
    ∧ control_operation c op_id w = (inr true, w')
    ∧ record (meta_key op_id) w'
      = Some (PDict (<["status" := PStr (control_status c)]> d))
    ∧ (∀ name, name ≠ "status" →
         field (meta_key op_id) name w' = field (meta_key op_id) name w)
    ∧ session w' !! progress_key op_id = session w !! progress_key op_id
    ∧ session w' !! result_key op_id = session w !! result_key op_id
    ∧ (∀ k, k ≠ meta_key op_id → session w' !! k = session w !! k).
Proof.
  intros Hw Hsome.
  destruct (control_effect c op_id w Hw Hsome)
    as (d & w' & Hrec & _ & Hc & Hrec' & Hframe & _).
  exists d, w'. split_and!; try done.
  - intros name Hne. unfold field. rewrite Hrec', Hrec.
    by rewrite lookup_insert_ne.
  - apply Hframe. intros H. symmetry in H. by apply meta_progress_ne in H.
  - apply Hframe. intros H. symmetry in H. by apply meta_result_ne in H.
Qed.

Lemma control_writes_status_only_witness :
  reachable demo_world
  ∧ record (meta_key demo_id) demo_world ≠ None
  ∧ ∃ d w',
      record (meta_key demo_id) demo_world = Some (PDict d)
      ∧ control_operation Cancel demo_id demo_world = (inr true, w')
      ∧ record (meta_key demo_id) w'
        = Some (PDict (<["status" := PStr (control_status Cancel)]> d))
      ∧ (∀ name, name ≠ "status" →
           field (meta_key demo_id) name w'
           = field (meta_key demo_id) name demo_world)
      ∧ session w' !! progress_key demo_id
        = session demo_world !! progress_key demo_id
      ∧ session w' !! result_key demo_id
        = session demo_world !! result_key demo_id
      ∧ (∀ k, k ≠ meta_key demo_id →
           session w' !! k = session demo_world !! k).
Proof.
  assert (H2 : record (meta_key demo_id) demo_world ≠ None)
    by (vm_compute; discriminate).
  split; [exact demo_reachable|]. split; [exact H2|].
  exact (control_writes_status_only demo_world demo_id Cancel
           demo_reachable H2).
Defined.



End scenarios.

(** ** A runner left to itself *)

Section runner_alone.
Import Json SQLiteSession Manager Observations.

Lemma exec_app tr1 tr2 w :
  exec (tr1 ++ tr2) w = exec tr1 w ≫= exec tr2.
Proof.
  revert w. induction tr1 as [|a tr1 IH]; intros w; simpl; [done|].
  destruct (step a w); [apply IH|done].
Qed.

Lemma step_run w u r :
  TASKS w !! u = Some r → alive (r_at r) = true →
  step (Run u) w = Some (run u r w).
Proof. intros Hr Ha. unfold step. by rewrite Hr, Ha. Qed.

Lemma py_eq_str_true v s : py_eq_str v s = true ↔ v = PStr s.
Proof.
  destruct v; simpl; try (split; [done|discriminate]).
  rewrite String.eqb_eq. split; [by intros ->|by intros [= ->]].
Qed.

(** The status in the table, as the runner's read sees it. *)
Lemma read_status w u :
  wf w → is_Some (TASKS w !! u) →
  ∃ d0 v, read (meta_key u) (PDict ∅) (session w) = PDict d0
    ∧ d0 !! "status" = Some v ∧ status u w = Some v.
Proof.
  intros Hwf Hu.
  destruct (read_meta_started w u (PDict ∅) Hwf Hu) as (d0 & Hread & [v Hv]).
  exists d0, v. split_and!; try done.
  rewrite read_record in Hread. unfold status, field.
  destruct (wf_meta w Hwf u Hu) as (x & Hx & _).
  unfold record in *. rewrite Hx in *. cbn in Hread. cbn. by rewrite Hread.
Qed.

Lemma counter_inc name name' w m :
  metrics w = Metrics.inc_counter name m →
  counter name' w
  = (if decide (name = name') then S (default 0 (m !! name'))
     else default 0 (m !! name')).
Proof.
  intros H. unfold counter. rewrite H. unfold Metrics.inc_counter.
  destruct (decide (name = name')) as [->|Hne].
  - by rewrite lookup_insert_eq.
  - by rewrite lookup_insert_ne.
Qed.

(** One iteration of the loop, from its top or out of the pause loop: the
    read that lets the runner through, then the unit of work. *)
Lemma iteration w u r :
  wf w → TASKS w !! u = Some r →
  (r_at r = AtBoundary ∧ status u w ≠ Some (PStr "paused")
   ∨ r_at r = Paused ∧ status u w = Some (PStr "running")) →
  ∃ w' st',
    exec [Run u; Run u] w = Some w'
    ∧ TASKS w'
      = <[u := Runner (r_duration r) (r_i r + 1) st'
                (if (r_i r + 1 <? steps r)%Z then AtBoundary else Finishing)]>
          (TASKS w)
    ∧ session w'
      = write (clock w) (progress_key u)
          (PDict {[ "step" := PInt (r_i r + 1); "total" := PInt (steps r) ]})
          (session w)
    ∧ metrics w' = Metrics.inc_counter "ops_heartbeat_total" (metrics w)
    ∧ clock w' = clock w ∧ in_flight w' = in_flight w.
Proof.
  intros Hwf Hr Hcase.
  destruct (read_status w u Hwf) as (d0 & v & Hread & Hv & Hst);
    [by eexists|].
  assert (Hmid : ∃ w1, step (Run u) w = Some w1
            ∧ w1 = set_TASKS
                     (insert u (Runner (r_duration r) (r_i r) (PDict d0) Working))
                     w).
  { destruct Hcase as [[Hat Hne]|[Hat Heq]].
    - eexists. split; [apply step_run; [done|by rewrite Hat]|].
      rewrite (run_at_boundary w u r d0) by done. rewrite Hv. cbn [default from_option id].
      destruct (py_eq_str v "paused") eqn:E; [|done].
      apply py_eq_str_true in E. subst v. congruence.
    - eexists. split; [apply step_run; [done|by rewrite Hat]|].
      rewrite (run_paused w u r d0) by done. rewrite Hv. cbn [default from_option id].
      rewrite Hst in Heq. injection Heq as ->. done. }
  destruct Hmid as (w1 & Hs1 & ->).
  eexists _, (PDict d0). split.
  - cbn [exec]. rewrite Hs1.
    rewrite (step_run _ u (Runner (r_duration r) (r_i r) (PDict d0) Working));
      [|unfold set_TASKS; cbn [TASKS]; by rewrite lookup_insert_eq|done].
    rewrite run_working by done. reflexivity.
  - unfold set_TASKS. cbn [TASKS session metrics clock in_flight r_i r_duration r_st].
    split_and!; try done. by rewrite insert_insert_eq.
Qed.


Lemma repeat_two_more {A} (a : A) n :
  repeat a (2 * S n) = [a; a] ++ repeat a (2 * n).
Proof. replace (2 * S n) with (S (S (2 * n))) by lia. done. Qed.

(** The rest of the loop: from the top of an iteration (or out of the pause
    loop) to the point behind the last unit of work. *)
Lemma loop_runs n : ∀ w u r,
  wf w → TASKS w !! u = Some r →
  (r_at r = AtBoundary ∧ status u w ≠ Some (PStr "paused")
   ∨ r_at r = Paused ∧ status u w = Some (PStr "running")) →
  Z.to_nat (steps r - r_i r) = n →
  ∃ w' st',
    exec (repeat (Run u) (2 * n)) w = Some w' ∧ wf w'
    ∧ TASKS w' = <[u := Runner (r_duration r) (steps r) st' Finishing]> (TASKS w)
    ∧ (∀ k, k ≠ progress_key u → session w' !! k = session w !! k)
    ∧ (∀ name, counter name w'
         = if decide (name = "ops_heartbeat_total") then counter name w + n
           else counter name w)
    ∧ clock w' = clock w ∧ in_flight w' = in_flight w.
Proof.
  induction n as [|n IH]; intros w u r Hwf Hr Hcase Hn.
  - destruct (wf_runner w Hwf u r Hr) as (Hc & _). unfold counter_ok in Hc.
    destruct Hcase as [[Hat _]|[Hat _]]; rewrite Hat in Hc; lia.
  - destruct (iteration w u r Hwf Hr Hcase)
      as (w1 & st1 & Hex & HT & Hs & Hm & Hcl & Hfl).
    pose proof (wf_exec _ _ _ Hwf Hex) as Hwf1.
    assert (Hframe1 : ∀ k, k ≠ progress_key u →
              session w1 !! k = session w !! k).
    { intros k Hk. rewrite Hs. unfold write. by rewrite lookup_insert_ne. }
    assert (Hcnt1 : ∀ name, counter name w1
              = if decide (name = "ops_heartbeat_total")
                then counter name w + 1 else counter name w).
    { intros name. rewrite (counter_inc _ name w1 _ Hm). unfold counter.
      destruct (decide ("ops_heartbeat_total" = name)) as [<-|Hne].
      - rewrite decide_True by done. lia.
      - rewrite decide_False by done. done. }
    rewrite repeat_two_more, exec_app, Hex. cbn [mbind option_bind].
    destruct (r_i r + 1 <? steps r)%Z eqn:E;
      [apply Z.ltb_lt in E|apply Z.ltb_ge in E].
    + set (r1 := Runner (r_duration r) (r_i r + 1) st1 AtBoundary) in *.
      assert (Hr1 : TASKS w1 !! u = Some r1) by (by rewrite HT, lookup_insert_eq).
      assert (Hst1 : status u w1 = status u w).
      { apply status_frame, Hframe1. apply meta_progress_ne. }
      destruct (IH w1 u r1 Hwf1 Hr1) as (w' & st' & Hex' & Hwf' & HT' & Hs' & Hm' & Hcl' & Hfl').
      * left. split; [done|]. rewrite Hst1.
        destruct Hcase as [[_ Hne]|[_ Heq]]; [done|]. by rewrite Heq.
      * unfold r1, steps in *. cbn [r_i r_duration] in *. lia.
      * exists w', st'. split_and!; try done.
        -- rewrite HT', HT. unfold r1, steps. cbn [r_i r_duration].
           by rewrite insert_insert_eq.
        -- intros k Hk. rewrite Hs', Hframe1 by done. done.
        -- intros name. rewrite Hm', Hcnt1.
           destruct (decide (name = "ops_heartbeat_total")); lia.
        -- congruence.
        -- congruence.
    + assert (n = 0) as -> by (unfold steps in *; lia).
      assert (Hi : (r_i r + 1 = steps r)%Z).
      { destruct (wf_runner w Hwf u r Hr) as (Hc & _). unfold counter_ok in Hc.
        destruct Hcase as [[Hat _]|[Hat _]]; rewrite Hat in Hc; lia. }
      exists w1, st1. cbn [repeat exec Nat.mul]. split_and!; try done.
      by rewrite HT, Hi.
Qed.

(** The three moves behind the loop: the Result, the last read, the
    status. *)
Lemma ending w u r :
  wf w → TASKS w !! u = Some r → r_at r = Finishing →
  ∃ w' (d0 : gmap string pyval),
    exec [Run u; Run u; Run u] w = Some w'
    ∧ read (meta_key u) (PDict ∅) (session w) = PDict d0
    ∧ TASKS w' = <[u := Runner (r_duration r) (r_i r) (r_st r) Done]> (TASKS w)
    ∧ session w'
      = write (clock w) (meta_key u)
          (PDict (<["status" := PStr "finished"]> d0))
          (write (clock w) (result_key u)
             (PDict {[ "status" := PStr "finished";
                       "completed_at" := PInt (clock w) ]}) (session w))
    ∧ metrics w' = Metrics.inc_counter "ops_finished_total" (metrics w)
    ∧ clock w' = clock w ∧ in_flight w' = in_flight w.
Proof.
  intros Hwf Hr Hat.
  destruct (read_meta_started w u (PDict ∅) Hwf) as (d0 & Hread & _);
    [by eexists|].
  exists (World
            (write (clock w) (meta_key u)
               (PDict (<["status" := PStr "finished"]> d0))
               (write (clock w) (result_key u)
                  (PDict {[ "status" := PStr "finished";
                            "completed_at" := PInt (clock w) ]}) (session w)))
            (Metrics.inc_counter "ops_finished_total" (metrics w)) (clock w)
            (<[u := Runner (r_duration r) (r_i r) (r_st r) Done]> (TASKS w))
            (in_flight w)), d0.
  split; [|done].
  cbn [exec]. rewrite (step_run w u r Hr) by (by rewrite Hat).
  rewrite run_finishing by done.
  set (r1 := Runner (r_duration r) (r_i r) (r_st r) Finalising).
  rewrite (step_run _ u r1); [|cbn [TASKS]; by rewrite lookup_insert_eq|done].
  rewrite run_finalising by done. unfold set_TASKS. cbn [TASKS session metrics clock in_flight].
  rewrite read_write_ne by (intros H; symmetry in H; by apply meta_result_ne in H).
  rewrite Hread.
  set (r2 := Runner (r_duration r1) (r_i r1) (r_st r1) (Marking (PDict d0))).
  rewrite (step_run _ u r2); [|cbn [TASKS]; by rewrite lookup_insert_eq|done].
  rewrite (run_marking _ u r2 d0) by done.
  cbn [TASKS session metrics clock in_flight r_i r_duration r_st r1 r2].
  by rewrite !insert_insert_eq.
Qed.


Lemma field_frame key name w w' :
  session w' !! key = session w !! key → field key name w' = field key name w.
Proof. intros H. unfold field, record. by rewrite H. Qed.

Lemma progress_frame u w w' :
  session w' !! progress_key u = session w !! progress_key u →
  progress u w' = progress u w.
Proof. intros H. unfold progress, field, record. by rewrite H. Qed.

Lemma record_written now key v t m c T fl :
  json_native v = true →
  record key (World (write now key v t) m c T fl) = Some v.
Proof.
  intros Hv. unfold record, write. cbn [session]. rewrite lookup_insert_eq.
  cbn [fmap option_fmap option_map value load]. by rewrite json_loads_dumps.
Qed.

(** X1: a runner that finds its operation not paused, and is then left to
    itself, ends after two moves for each remaining step and three more,
    with every step counted, a finished Result and the status finished. *)
Theorem runner_completes (w : world) (op_id : string) (r : runner) :
  reachable w → TASKS w !! op_id = Some r →
  (r_at r = AtBoundary ∧ status op_id w ≠ Some (PStr "paused")
   ∨ r_at r = Paused ∧ status op_id w = Some (PStr "running")) →
  ∃ w',
    exec (repeat (Run op_id) (2 * Z.to_nat (steps r - r_i r) + 3)) w = Some w'
    ∧ (r_at <$> TASKS w' !! op_id) = Some Done
    ∧ step (Run op_id) w' = None
    ∧ progress op_id w' = Some (steps r, steps r)
    ∧ record (result_key op_id) w'
      = Some (PDict {[ "status" := PStr "finished";
                       "completed_at" := PInt (clock w) ]})
    ∧ status op_id w' = Some (PStr "finished")
    ∧ (∀ name, name ≠ "status" →
         field (meta_key op_id) name w' = field (meta_key op_id) name w)
    ∧ counter "ops_heartbeat_total" w'
      = counter "ops_heartbeat_total" w + Z.to_nat (steps r - r_i r)
    ∧ counter "ops_finished_total" w' = counter "ops_finished_total" w + 1
    ∧ (∀ k, ¬ owns op_id k → session w' !! k = session w !! k).
Proof.
  intros Hw%reachable_wf Hr Hcase.
  destruct (loop_runs _ w op_id r Hw Hr Hcase eq_refl)
    as (w2 & st2 & Hex2 & Hwf2 & HT2 & Hs2 & Hm2 & Hcl2 & Hfl2).
  set (r2 := Runner (r_duration r) (steps r) st2 Finishing) in *.
  assert (Hr2 : TASKS w2 !! op_id = Some r2) by (by rewrite HT2, lookup_insert_eq).
  destruct (ending w2 op_id r2 Hwf2 Hr2 eq_refl)
    as (w3 & d0 & Hex3 & Hread & HT3 & Hs3 & Hm3 & Hcl3 & Hfl3).
  pose proof (wf_exec _ _ _ Hwf2 Hex3) as Hwf3.
  assert (Hr3 : TASKS w3 !! op_id = Some (Runner (r_duration r) (steps r) st2 Done))
    by (by rewrite HT3, lookup_insert_eq).
  destruct (wf_meta w2 Hwf2 op_id) as (x & Hx & Hok); [by eexists|].
  destruct (read_meta_row op_id x (PDict ∅) _ Hx Hok) as (d0' & Hread' & _ & Hn & _).
  assert (d0' = d0) as -> by congruence.
  assert (Hrec3 : record (meta_key op_id) w3
                  = Some (PDict (<["status" := PStr "finished"]> d0))).
  { unfold record. rewrite Hs3. unfold write. rewrite lookup_insert_eq.
    cbn [fmap option_fmap option_map value load].
    rewrite json_loads_dumps; [done|]. by apply native_dict_insert. }
  assert (Hrec : record (meta_key op_id) w = Some (PDict d0)).
  { unfold record. rewrite <- Hs2 by apply meta_progress_ne.
    rewrite read_record in Hread. unfold record in Hread.
    rewrite Hx in *. cbn in *. by rewrite Hread. }
  exists w3. split_and!.
  - rewrite repeat_app, exec_app, Hex2. exact Hex3.
  - by rewrite Hr3.
  - unfold step. by rewrite Hr3.
  - destruct (progress_started w3 op_id _ Hwf3 Hr3) as [Hp _].
    rewrite Hp. cbn [r_i r_duration]. pose proof (steps_pos r).
    destruct (steps r =? 0)%Z eqn:E; [lia|]. done.
  - unfold record. rewrite Hs3. unfold write.
    rewrite lookup_insert_ne by apply meta_result_ne.
    rewrite lookup_insert_eq. cbn [fmap option_fmap option_map value load].
    rewrite (json_loads_dumps _ (native_finished _)). by rewrite Hcl2.
  - unfold status, field. rewrite Hrec3. by rewrite lookup_insert_eq.
  - intros name Hne. unfold field. rewrite Hrec3, Hrec.
    by rewrite lookup_insert_ne.
  - rewrite (counter_inc _ _ w3 _ Hm3). rewrite decide_False by done.
    fold (counter "ops_heartbeat_total" w2). rewrite Hm2.
    by rewrite decide_True.
  - rewrite (counter_inc _ _ w3 _ Hm3). rewrite decide_True by done.
    fold (counter "ops_finished_total" w2). rewrite Hm2.
    rewrite decide_False by done. lia.
  - intros k Ho. rewrite Hs3. unfold write.
    rewrite !lookup_insert_ne by (intros <-; apply Ho; unfold owns; auto).
    apply Hs2. intros ->. apply Ho. unfold owns. auto.
Qed.


Lemma paused_poll w u r :
  wf w → TASKS w !! u = Some r →
  r_at r = AtBoundary ∨ r_at r = Paused →
  status u w = Some (PStr "paused") →
  ∃ st, step (Run u) w
        = Some (set_TASKS
                  (insert u (Runner (r_duration r) (r_i r) st Paused)) w).
Proof.
  intros Hwf Hr Hat Hst.
  destruct (read_status w u Hwf) as (d0 & v & Hread & Hv & Hst');
    [by eexists|].
  assert (v = PStr "paused") as -> by congruence.
  exists (PDict d0). destruct Hat as [Hat|Hat].
  - rewrite (step_run w u r Hr) by (by rewrite Hat).
    rewrite (run_at_boundary w u r d0) by done. by rewrite Hv.
  - rewrite (step_run w u r Hr) by (by rewrite Hat).
    rewrite (run_paused w u r d0) by done. by rewrite Hv.
Qed.

(** X2: while the status is paused the runner only polls: however many
    moves it makes, it stays in the pause loop at the same step, and the
    table and the counters are left as they were. *)
Theorem paused_runner_waits (w : world) (op_id : string) (r : runner) (n : nat) :
  reachable w → TASKS w !! op_id = Some r →
  r_at r = AtBoundary ∨ r_at r = Paused →
  status op_id w = Some (PStr "paused") →
  ∃ w' st,
    exec (repeat (Run op_id) (S n)) w = Some w'
    ∧ TASKS w' = <[op_id := Runner (r_duration r) (r_i r) st Paused]> (TASKS w)
    ∧ session w' = session w ∧ metrics w' = metrics w
    ∧ clock w' = clock w ∧ in_flight w' = in_flight w.
Proof.
  intros Hw%reachable_wf. revert w r Hw.
  induction n as [|n IH]; intros w r Hwf Hr Hat Hst.
  - destruct (paused_poll w op_id r Hwf Hr Hat Hst) as (st & Hs).
    eexists _, st. cbn [repeat exec]. rewrite Hs. done.
  - destruct (paused_poll w op_id r Hwf Hr Hat Hst) as (st & Hs).
    set (w1 := set_TASKS (insert op_id (Runner (r_duration r) (r_i r) st Paused)) w) in *.
    pose proof (wf_step _ _ _ Hwf Hs) as Hwf1.
    destruct (IH w1 (Runner (r_duration r) (r_i r) st Paused) Hwf1)
      as (w' & st' & Hex & HT & Hrest).
    + unfold w1, set_TASKS. cbn [TASKS]. by rewrite lookup_insert_eq.
    + by right.
    + rewrite <- Hst. by apply status_frame.
    + exists w', st'. split.
      * change (repeat (Run op_id) (S (S n)))
          with (Run op_id :: repeat (Run op_id) (S n)).
        cbn [exec]. rewrite Hs. exact Hex.
      * split; [|exact Hrest]. rewrite HT. unfold w1, set_TASKS.
        cbn [TASKS r_i r_duration]. by rewrite insert_insert_eq.
Qed.

(** X3: a runner in the pause loop that reads the status cancelled writes
    the cancelled Result and returns, in two moves: no further unit of work
    is done, the Progress record and the metadata stay as they were, and
    the thread makes no move any more. *)
Theorem cancel_while_paused (w : world) (op_id : string) (r : runner) :
  reachable w → TASKS w !! op_id = Some r → r_at r = Paused →
  status op_id w = Some (PStr "cancelled") →
  ∃ w',
    exec [Run op_id; Run op_id] w = Some w'
    ∧ (r_at <$> TASKS w' !! op_id) = Some Returned
    ∧ step (Run op_id) w' = None
    ∧ record (result_key op_id) w'
      = Some (PDict {[ "status" := PStr "cancelled" ]})
    ∧ progress op_id w' = progress op_id w
    ∧ status op_id w' = Some (PStr "cancelled")
    ∧ counter "ops_cancelled_total" w' = counter "ops_cancelled_total" w + 1
    ∧ counter "ops_heartbeat_total" w' = counter "ops_heartbeat_total" w
    ∧ (∀ k, k ≠ result_key op_id → session w' !! k = session w !! k).
Proof.
  intros Hwf%reachable_wf Hr Hat Hst.
  destruct (read_status w op_id Hwf) as (d0 & v & Hread & Hv & Hst');
    [by eexists|].
  assert (v = PStr "cancelled") as -> by congruence.
  set (r1 := Runner (r_duration r) (r_i r) (PDict d0) Cancelling).
  assert (Hs1 : step (Run op_id) w = Some (set_TASKS (insert op_id r1) w)).
  { rewrite (step_run w op_id r Hr) by (by rewrite Hat).
    rewrite (run_paused w op_id r d0) by done. by rewrite Hv. }
  eexists. split.
  { cbn [exec]. rewrite Hs1.
    rewrite (step_run _ op_id r1);
      [|unfold set_TASKS; cbn [TASKS]; by rewrite lookup_insert_eq|done].
    rewrite run_cancelling by done. reflexivity. }
  unfold set_TASKS.
  cbn [TASKS session metrics clock in_flight r_i r_duration r_st r1].
  assert (Hframe : ∀ k, k ≠ result_key op_id →
            write (clock w) (result_key op_id)
              (PDict {[ "status" := PStr "cancelled" ]}) (session w) !! k
            = session w !! k).
  { intros k Hk. unfold write. by rewrite lookup_insert_ne. }
  split_and!.
  - by rewrite lookup_insert_eq.
  - unfold step. cbn [TASKS]. by rewrite lookup_insert_eq.
  - apply record_written, native_cancelled.
  - apply progress_frame. cbn [session]. apply Hframe, progress_result_ne.
  - rewrite <- Hst. apply status_frame. cbn [session].
    apply Hframe, meta_result_ne.
  - unfold counter, Metrics.inc_counter. cbn [metrics].
    rewrite lookup_insert_eq. cbn. lia.
  - unfold counter, Metrics.inc_counter. cbn [metrics].
    by rewrite lookup_insert_ne.
  - exact Hframe.
Qed.

End runner_alone.

(** ** No exception, and metadata that stays *)

Section steady.
Import Json SQLiteSession Manager Observations.

(** X4: in a reachable world no code of the manager raises: no runner
    thread has died of an exception, the next move of every thread
    returns, every call in flight completes with True, and every control
    call returns a boolean. *)
Theorem manager_never_raises (w : world) :
  reachable w →
  (∀ u r e, TASKS w !! u = Some r → r_at r ≠ Crashed e)
  ∧ (∀ u r, TASKS w !! u = Some r →
       ∃ r' w', _simulate_task u r w = (inr r', w'))
  ∧ (∀ cl, cl ∈ in_flight w → ∃ w', leave cl w = (inr true, w'))
  ∧ (∀ c u, ∃ b w', control_operation c u w = (inr b, w')).
Proof.
  intros Hw. pose proof (reachable_wf w Hw) as Hwf. split_and!.
  - intros u r e Hr Hat. destruct (wf_runner w Hwf u r Hr) as (Hc & _).
    unfold counter_ok in Hc. by rewrite Hat in Hc.
  - intros u r Hr.
    destruct (read_meta_started w u (PDict ∅) Hwf) as (d0 & Hread & _);
      [by eexists|].
    destruct (wf_runner w Hwf u r Hr) as (Hc & Hl & _).
    unfold _simulate_task. unfold counter_ok, locals_ok in *.
    destruct (r_at r) eqn:Hat; try done; unfold_M; rewrite ?Hread;
      cbn [py_get]; lazy beta iota.
    + destruct (py_eq_str _ _); by eexists _, _.
    + destruct (py_eq_str _ "running"); [by eexists _, _|].
      destruct (py_eq_str _ _); by eexists _, _.
    + by eexists _, _.
    + destruct (_ <? _)%Z; by eexists _, _.
    + by eexists _, _.
    + by eexists _, _.
    + destruct Hl as (dm & -> & _). by eexists _, _.
    + by eexists _, _.
    + by eexists _, _.
  - intros cl Hcl. destruct (wf_calls w Hwf cl Hcl) as [_ (d & Hd & _)].
    destruct cl as [c u meta]. simpl in Hd. subst meta.
    rewrite leave_dict. by eexists.
  - intros c u. destruct (session w !! meta_key u) as [x|] eqn:Hx.
    + destruct (meta_lookup_ok w u x Hwf Hx) as [_ Hok].
      destruct (control_found c u x w Hx Hok) as (d & _ & _ & _ & _ & H).
      rewrite H. by eexists _, _.
    + rewrite control_not_found by done. by eexists _, _.
Qed.


Lemma holds_current_read w u :
  wf w → is_Some (TASKS w !! u) →
  holds_current (read (meta_key u) (PDict ∅) (session w)) u w
  ∧ holds_current (read (meta_key u) PNone (session w)) u w.
Proof.
  intros Hwf Hu. destruct (wf_meta w Hwf u Hu) as (x & Hx & Hok).
  assert (H : ∀ default, holds_current (read (meta_key u) default (session w)) u w).
  { intros default.
    destruct (read_meta_row u x default _ Hx Hok) as (d & Hread & _ & Hn & _).
    rewrite Hread. split; [done|]. intros name _.
    unfold field. rewrite read_record in Hread. unfold record in *.
    rewrite Hx in *. cbn in *. by rewrite Hread. }
  split; apply H.
Qed.

Lemma holds_current_frame v u w w' :
  (∀ name, name ≠ "status" →
     field (meta_key u) name w' = field (meta_key u) name w) →
  holds_current v u w → holds_current v u w'.
Proof.
  intros Hf [Hn Hv]. split; [done|]. intros name Hne.
  rewrite Hf by done. by apply Hv.
Qed.

(** Writing a held value back, with a new status, keeps every other
    field of the record. *)
Lemma fields_after_write_back now u (d : gmap string pyval) s w t m c T fl name :
  holds_current (PDict d) u w → name ≠ "status" →
  field (meta_key u) name
    (World (write now (meta_key u) (PDict (<["status" := PStr s]> d)) t)
       m c T fl)
  = field (meta_key u) name w.
Proof.
  intros [Hn Hv] Hne. unfold field at 1.
  rewrite record_written by (by apply native_dict_insert).
  rewrite lookup_insert_ne by done. by apply (Hv name).
Qed.

(** What a step does to the fields of a metadata record other than the
    status: nothing. *)
Lemma fields_step a w w' u name :
  wf w → settled w → step a w = Some w' →
  is_Some (TASKS w !! u) → name ≠ "status" →
  field (meta_key u) name w' = field (meta_key u) name w.
Proof.
  intros Hwf Hset Hstep Hu Hne.
  destruct a as [dt|u' d md|c u'|n|u']; unfold step in Hstep.
  - destruct (0 <=? dt)%Z; [|done]. by injection Hstep as <-.
  - destruct (uuid_shaped u'); [|done].
    destruct (bool_decide (TASKS w !! u' = None)) eqn:Hf; [|done].
    apply bool_decide_eq_true in Hf. lazy beta iota delta [andb] in Hstep.
    assert (w' = (start_operation u' d md w).2) as -> by congruence.
    apply field_frame, start_frame. intros Ho%owns_meta. subst u'.
    rewrite Hf in Hu. by destruct Hu.
  - assert (w' = enter c u' w) as -> by congruence.
    apply field_frame. unfold enter. by destruct (negb _).
  - destruct (in_flight w !! n) as [cl|] eqn:Hn; [|done].
    assert (w' = set_in_flight (delete n) (leave cl w).2) as -> by congruence.
    assert (Hin : cl ∈ in_flight w) by (by eapply list_elem_of_lookup_2).
    destruct (wf_calls w Hwf cl Hin) as [_ (dm & Hdm & _)].
    pose proof (settled_calls w Hset cl Hin) as Hcur.
    destruct cl as [c u' meta]. simpl in *. subst meta.
    rewrite leave_dict. unfold_M.
    destruct (decide (u' = u)) as [->|Hneq].
    + by apply fields_after_write_back.
    + apply field_frame. cbn [session]. unfold write.
      rewrite lookup_insert_ne; [done|]. intros H%meta_key_inj. done.
  - destruct (TASKS w !! u') as [r|] eqn:Hr; [|done].
    destruct (alive (r_at r)) eqn:Ha; [|done].
    assert (w' = run u' r w) as -> by congruence.
    destruct (r_at r) eqn:Hat; try done.
    + apply field_frame, run_frame; [done|done|by rewrite Hat].
    + apply field_frame, run_frame; [done|done|by rewrite Hat].
    + apply field_frame, run_frame; [done|done|rewrite Hat].
      apply meta_result_ne.
    + apply field_frame, run_frame; [done|done|rewrite Hat].
      apply meta_progress_ne.
    + apply field_frame, run_frame; [done|done|rewrite Hat].
      apply meta_result_ne.
    + apply field_frame, run_frame; [done|done|by rewrite Hat].
    + destruct (decide (u' = u)) as [->|Hneq].
      * pose proof (settled_marking w Hset u r meta Hr Hat) as Hcur.
        destruct (wf_runner w Hwf u r Hr) as (_ & Hl & _).
        unfold locals_ok in Hl. rewrite Hat in Hl. destruct Hl as (dm & -> & _).
        rewrite (run_marking w u r dm) by done.
        by apply fields_after_write_back.
      * apply field_frame, run_frame; [done|done|rewrite Hat].
        intros H%meta_key_inj. done.
Qed.


(** A move that leaves its thread before the last metadata write has just
    read the metadata. *)
Lemma run_to_marking w u r r' meta :
  wf w → TASKS w !! u = Some r → alive (r_at r) = true →
  TASKS (run u r w) !! u = Some r' → r_at r' = Marking meta →
  meta = read (meta_key u) (PDict ∅) (session w).
Proof.
  intros Hwf Hr Ha Hr' Hat'.
  destruct (read_meta_started w u (PDict ∅) Hwf) as (d0 & Hread & _);
    [by eexists|].
  destruct (wf_runner w Hwf u r Hr) as (_ & Hl & _).
  destruct (r_at r) eqn:Hat; try done.
  - rewrite (run_at_boundary w u r d0) in Hr' by done.
    unfold set_TASKS in Hr'. cbn [TASKS] in Hr'.
    rewrite lookup_insert_eq in Hr'. injection Hr' as <-.
    cbn [r_at] in Hat'. by destruct (py_eq_str _ _).
  - rewrite (run_paused w u r d0) in Hr' by done.
    unfold set_TASKS in Hr'. cbn [TASKS] in Hr'.
    rewrite lookup_insert_eq in Hr'. injection Hr' as <-.
    cbn [r_at] in Hat'. destruct (py_eq_str _ "running"); [done|].
    by destruct (py_eq_str _ _).
  - rewrite run_cancelling in Hr' by done. cbn [TASKS] in Hr'.
    rewrite lookup_insert_eq in Hr'. by injection Hr' as <-.
  - rewrite run_working in Hr' by done. cbn [TASKS] in Hr'.
    rewrite lookup_insert_eq in Hr'. injection Hr' as <-.
    cbn [r_at] in Hat'. by destruct (_ <? _)%Z.
  - rewrite run_finishing in Hr' by done. cbn [TASKS] in Hr'.
    rewrite lookup_insert_eq in Hr'. by injection Hr' as <-.
  - rewrite run_finalising in Hr' by done.
    unfold set_TASKS in Hr'. cbn [TASKS] in Hr'.
    rewrite lookup_insert_eq in Hr'. injection Hr' as <-.
    cbn [r_at] in Hat'. by injection Hat' as <-.
  - unfold locals_ok in Hl. rewrite Hat in Hl. destruct Hl as (dm & -> & _).
    rewrite (run_marking w u r dm) in Hr' by done. cbn [TASKS] in Hr'.
    rewrite lookup_insert_eq in Hr'. by injection Hr' as <-.
Qed.

Lemma run_in_flight u r w : in_flight (run u r w) = in_flight w.
Proof.
  unfold run, _simulate_task.
  destruct (r_at r); unfold_M; try done.
  - destruct (py_get _ _); [done|]. lazy beta iota.
    by destruct (py_eq_str _ _).
  - destruct (py_get _ _); [done|]. lazy beta iota.
    destruct (py_eq_str _ "running"); [done|]. by destruct (py_eq_str _ _).
  - by destruct (_ <? _)%Z.
  - by destruct (py_setitem _ _ _).
Qed.

Lemma step_in_flight a w w' cl :
  step a w = Some w' → cl ∈ in_flight w' →
  cl ∈ in_flight w
  ∨ ∃ c u, a = Enter c u ∧ cl = Call c u (read (meta_key u) PNone (session w))
           ∧ truthy (read (meta_key u) PNone (session w)) = true.
Proof.
  intros Hstep Hcl.
  destruct a as [dt|u' d md|c u'|n|u']; unfold step in Hstep.
  - destruct (0 <=? dt)%Z; [|done]. injection Hstep as <-. by left.
  - destruct (_ && _); [|done]. injection Hstep as <-. by left.
  - injection Hstep as <-. unfold enter in Hcl.
    destruct (truthy _) eqn:Ht; cbn [negb] in Hcl; [|by left].
    unfold set_in_flight in Hcl. cbn [in_flight] in Hcl.
    apply elem_of_app in Hcl as [?| ->%list_elem_of_singleton]; [by left|].
    right. by exists c, u'.
  - destruct (in_flight w !! n) as [cl0|]; [|done]. injection Hstep as <-.
    left. unfold set_in_flight in Hcl. cbn [in_flight] in Hcl.
    apply list_elem_of_delete_inv in Hcl.
    unfold leave in Hcl. unfold_M. by destruct (py_setitem _ _ _).
  - destruct (TASKS w !! u') as [r|]; [|done].
    destruct (alive (r_at r)); [|done]. injection Hstep as <-. left.
    by rewrite run_in_flight in Hcl.
Qed.

Lemma settled_init : settled init.
Proof.
  split; cbn.
  - intros cl Hcl. by apply not_elem_of_nil in Hcl.
  - intros u r meta Hr. by rewrite lookup_empty in Hr.
Qed.

Lemma settled_step a w w' :
  wf w → settled w → step a w = Some w' → settled w'.
Proof.
  intros Hwf Hset Hstep.
  assert (Hkeep : ∀ v u, is_Some (TASKS w !! u) →
            holds_current v u w → holds_current v u w').
  { intros v u Hu. apply holds_current_frame. intros name Hne.
    by apply (fields_step a w w' u name). }
  split.
  - intros cl Hcl.
    destruct (step_in_flight a w w' cl Hstep Hcl) as [Hold|(c & u & -> & -> & Ht)].
    + destruct (wf_calls w Hwf cl Hold) as [Hu _]. apply Hkeep; [done|].
      by apply (settled_calls w Hset).
    + cbn [c_meta c_op_id].
      assert (Hu : is_Some (TASKS w !! u)).
      { unfold read in Ht. destruct (session w !! meta_key u) as [x|] eqn:Hx;
          [|done]. by destruct (meta_lookup_ok w u x Hwf Hx). }
      apply Hkeep; [done|]. by apply holds_current_read.
  - intros u r' meta Hr' Hat'.
    destruct a as [dt|u' d md|c u'|n|u']; unfold step in Hstep.
    + destruct (0 <=? dt)%Z; [|done]. injection Hstep as <-.
      by apply (settled_marking w Hset u r').
    + destruct (uuid_shaped u'); [|done].
      destruct (bool_decide (TASKS w !! u' = None)) eqn:Hf; [|done].
      lazy beta iota delta [andb] in Hstep.
      assert (w' = (start_operation u' d md w).2) as -> by congruence.
      rewrite start_tasks in Hr'.
      destruct (decide (u' = u)) as [->|Hne].
      * rewrite lookup_insert_eq in Hr'. injection Hr' as <-. done.
      * rewrite lookup_insert_ne in Hr' by done.
        apply Hkeep; [by eexists|]. by apply (settled_marking w Hset u r').
    + assert (w' = enter c u' w) as -> by congruence.
      assert (Hr : TASKS w !! u = Some r')
        by (unfold enter in Hr'; by destruct (negb _)).
      apply Hkeep; [by eexists|]. by apply (settled_marking w Hset u r').
    + destruct (in_flight w !! n) as [cl|] eqn:Hn; [|done].
      assert (w' = set_in_flight (delete n) (leave cl w).2) as -> by congruence.
      assert (Hr : TASKS w !! u = Some r').
      { unfold leave in Hr'. unfold_M. by destruct (py_setitem _ _ _). }
      apply Hkeep; [by eexists|]. by apply (settled_marking w Hset u r').
    + destruct (TASKS w !! u') as [r|] eqn:Hr; [|done].
      destruct (alive (r_at r)) eqn:Ha; [|done].
      assert (w' = run u' r w) as -> by congruence.
      destruct (decide (u' = u)) as [->|Hne].
      * rewrite (run_to_marking w u r r' meta Hwf Hr Ha Hr' Hat').
        apply Hkeep; [by eexists|]. by apply holds_current_read.
      * destruct (run_runner w u' r Hwf Hr Ha) as (r'' & HT & _).
        rewrite HT, lookup_insert_ne in Hr' by done.
        apply Hkeep; [by eexists|]. by apply (settled_marking w Hset u r').
Qed.

Lemma settled_exec tr w w' :
  wf w → settled w → exec tr w = Some w' → settled w'.
Proof.
  revert w. induction tr as [|a tr IH]; intros w Hwf Hset Hex; simpl in Hex.
  - by injection Hex as <-.
  - destruct (step a w) as [w1|] eqn:Hs; [|done].
    apply (IH w1); [by apply (wf_step a w)|by apply (settled_step a w)|done].
Qed.

Lemma reachable_settled w : reachable w → settled w.
Proof.
  intros [tr Htr]. apply (settled_exec tr init); [apply wf_init|apply settled_init|done].
Qed.

Lemma step_tasks a w w' u :
  wf w → step a w = Some w' → is_Some (TASKS w !! u) → is_Some (TASKS w' !! u).
Proof.
  intros Hwf Hs [r Hr].
  destruct (step_runner w w' a u r Hwf Hs Hr) as (r' & Hr' & _). by eexists.
Qed.

(** X5: once an operation is started, no step of any thread or caller
    changes a field of its metadata record other than the status: the
    duration, the creation time and the caller's annotations stay as
    [start_operation] stored them, along every interleaving, also when
    control calls race with each other and with the runner. The record and
    the Progress record are never removed. *)
Theorem metadata_fields_fixed (tr : list action) (w w' : world)
    (op_id name : string) :
  reachable w → exec tr w = Some w' →
  is_Some (TASKS w !! op_id) → name ≠ "status" →
  field (meta_key op_id) name w' = field (meta_key op_id) name w
  ∧ is_Some (status op_id w')
  ∧ is_Some (progress op_id w').
Proof.
  intros Hw Hex Hu Hne.
  pose proof (reachable_wf w Hw) as Hwf.
  pose proof (reachable_settled w Hw) as Hset.
  assert (Hgen : field (meta_key op_id) name w' = field (meta_key op_id) name w
                 ∧ wf w' ∧ is_Some (TASKS w' !! op_id)).
  { clear Hw. revert w Hwf Hset Hu Hex.
    induction tr as [|a tr IH]; intros w Hwf Hset Hu Hex; simpl in Hex.
    - by injection Hex as <-.
    - destruct (step a w) as [w1|] eqn:Hs; [|done].
      destruct (IH w1) as (Hf & Hwf' & Hu'); try done.
      + by apply (wf_step a w).
      + by apply (settled_step a w).
      + by apply (step_tasks a w).
      + split; [|done]. rewrite Hf. by apply (fields_step a w w1). }
  destruct Hgen as (Hf & Hwf' & [r' Hr']). split; [done|]. split.
  - destruct (read_status w' op_id Hwf') as (d0 & v & _ & _ & Hst); [by eexists|].
    rewrite Hst. by eexists.
  - destruct (progress_started w' op_id r' Hwf' Hr') as [Hp _].
    rewrite Hp. by eexists.
Qed.

End steady.

(** ** The listing, exactly *)

Section listing_exact.
Import Json SQLiteSession Manager.

(** Who gets an entry in the fold of [list_operations]: only the second
    field of a key that passes the test. *)
Lemma list_operations_fold_inv (t : gmap string row) (m : gmap string pyval) u :
  is_Some
    (map_fold
       (λ k v (ops : gmap string (gmap string pyval)),
          if is_meta_key k then
            let op_id := nth 1 (split ":" k) EmptyString in
            let entry := default ∅ (ops !! op_id) in
            let entry := <["meta" := v]> entry in
            let entry := <["progress" := read (progress_key op_id) PNone t]> entry in
            let entry := <["result" := read (result_key op_id) PNone t]> entry in
            <[op_id := entry]> ops
          else ops)
       ∅ m !! u) →
  ∃ k, is_Some (m !! k) ∧ is_meta_key k = true
       ∧ nth 1 (split ":" k) EmptyString = u.
Proof.
  revert u.
  apply (map_fold_weak_ind
    (λ (ops : gmap string (gmap string pyval)) (m : gmap string pyval),
       ∀ u, is_Some (ops !! u) →
         ∃ k, is_Some (m !! k) ∧ is_meta_key k = true
              ∧ nth 1 (split ":" k) EmptyString = u)).
  - intros u [x Hx]. by rewrite lookup_empty in Hx.
  - intros k v m' ops Hk IH u Hu.
    assert (Hold : is_Some (ops !! u) →
              ∃ k0, is_Some (<[k:=v]> m' !! k0) ∧ is_meta_key k0 = true
                    ∧ nth 1 (split ":" k0) EmptyString = u).
    { intros H. destruct (IH u H) as (k0 & Hk0 & ? & ?). exists k0.
      split; [|done]. apply lookup_insert_is_Some'. by right. }
    destruct (is_meta_key k) eqn:Hmk; [|by apply Hold].
    cbn zeta in Hu.
    destruct (decide (nth 1 (split ":" k) EmptyString = u)) as [Heq|Hne].
    + exists k. by rewrite lookup_insert_eq.
    + rewrite lookup_insert_ne in Hu by done. by apply Hold.
Qed.

(** The listing over any table whose meta-shaped keys are the metadata
    keys of colon-free ids. *)
Lemma list_operations_keyed w u :
  (∀ k, is_Some (session w !! k) → is_meta_key k = true →
        ∃ u0, k = meta_key u0 ∧ count ":" u0 = 0) →
  list_operations w !! u
  = if decide (count ":" u = 0)
    then (λ v, <["result" := read (result_key u) PNone (session w)]>
                 (<["progress" := read (progress_key u) PNone (session w)]>
                    (<["meta" := v]> ∅))) <$> record (meta_key u) w
    else None.
Proof.
  intros Hkeys.
  assert (Hkeys' : ∀ k, is_Some (all (session w) !! k) → is_meta_key k = true →
            ∃ u0, k = meta_key u0 ∧ count ":" u0 = 0).
  { intros k Hk. apply Hkeys. unfold all in Hk. rewrite lookup_fmap in Hk.
    by apply fmap_is_Some in Hk. }
  unfold list_operations. cbn zeta. destruct (decide (count ":" u = 0)) as [Hu|Hu].
  - rewrite (list_operations_fold (session w) (all (session w))) by done.
    unfold all, record. by rewrite lookup_fmap.
  - apply eq_None_not_Some. intros Hsome.
    destruct (list_operations_fold_inv _ _ _ Hsome) as (k & Hk & Hmk & Hid).
    destruct (Hkeys' k Hk Hmk) as (u0 & -> & Hu0).
    rewrite op_id_of_meta_key in Hid by done. by subst u0.
Qed.

Lemma wf_keyed w :
  wf w →
  ∀ k, is_Some (session w !! k) → is_meta_key k = true →
       ∃ u0, k = meta_key u0 ∧ count ":" u0 = 0.
Proof.
  intros Hwf k Hk Hmk.
  destruct (wf_keys w Hwf k Hk) as (u0 & Hu0 & [->|[->| ->]]).
  - exists u0. split; [done|]. apply uuid_no_colon, (wf_ids w Hwf u0 Hu0).
  - by rewrite is_meta_key_progress in Hmk.
  - by rewrite is_meta_key_result in Hmk.
Qed.

(** X6: [list_operations] lists the started operations and nothing else,
    each with its metadata record, its Progress record and its Result
    record, or None for the Result while there is none. *)
Theorem list_operations_exact (w : world) (op_id : string) :
  reachable w →
  (TASKS w !! op_id = None → list_operations w !! op_id = None)
  ∧ (is_Some (TASKS w !! op_id) →
     ∃ meta progress,
       record (meta_key op_id) w = Some meta
       ∧ record (progress_key op_id) w = Some progress
       ∧ list_operations w !! op_id
         = Some {[ "result" := default PNone (record (result_key op_id) w);
                   "progress" := progress;
                   "meta" := meta ]}).
Proof.
  intros Hwf%reachable_wf. split.
  - intros Hnone. rewrite (list_operations_keyed w op_id (wf_keyed w Hwf)).
    destruct (decide _); [|done].
    destruct (session w !! meta_key op_id) as [x|] eqn:Hx.
    + destruct (meta_lookup_ok w op_id x Hwf Hx) as [Hu _].
      rewrite Hnone in Hu. by destruct Hu.
    + unfold record. by rewrite Hx.
  - intros [r Hr].
    destruct (wf_meta w Hwf op_id) as (x & Hx & _); [by eexists|].
    destruct (wf_runner w Hwf op_id r Hr) as (_ & _ & Hp & _).
    unfold progress_ok in Hp. fold (record (progress_key op_id) w) in Hp.
    assert (Hm : record (meta_key op_id) w = Some (load (value x)))
      by (unfold record; by rewrite Hx).
    eexists _, _. split; [exact Hm|]. split; [exact Hp|].
    rewrite (list_operations_started w op_id Hwf) by (by eexists).
    rewrite !read_record, Hm, Hp. cbn [from_option id].
    by rewrite insert_empty.
Qed.


Lemma startswith_owned u k : owns u k → startswith "op:" k = true.
Proof.
  unfold startswith, meta_key, progress_key, result_key.
  intros [->|[->| ->]].
  - change ("op:" +:+ u +:+ ":meta")
      with (String "o" (String "p" (String ":" (u +:+ ":meta")))).
    simpl. by destruct (u +:+ ":meta").
  - change ("op:" +:+ u +:+ ":progress")
      with (String "o" (String "p" (String ":" (u +:+ ":progress")))).
    simpl. by destruct (u +:+ ":progress").
  - change ("op:" +:+ u +:+ ":result")
      with (String "o" (String "p" (String ":" (u +:+ ":result")))).
    simpl. by destruct (u +:+ ":result").
Qed.

(** X7: rows that other components keep in the same table under keys that
    do not start with "op:" (the workers' "<name>-last", the coordinator's
    "req-<id>") do not show in the listing and do not change it. *)
Theorem list_operations_ignores_foreign (w : world) (foreign : gmap string row) :
  reachable w →
  (∀ k, is_Some (foreign !! k) → startswith "op:" k = false) →
  list_operations (set_session (λ t, foreign ∪ t) w) = list_operations w.
Proof.
  intros Hwf%reachable_wf Hforeign.
  assert (Hown : ∀ u k, owns u k → (foreign ∪ session w) !! k = session w !! k).
  { intros u k Ho. apply lookup_union_r.
    destruct (foreign !! k) as [x|] eqn:Hx; [|done].
    pose proof (startswith_owned u k Ho) as Hs.
    rewrite Hforeign in Hs; [done|by eexists]. }
  apply map_eq. intros u.
  rewrite (list_operations_keyed w u (wf_keyed w Hwf)).
  rewrite list_operations_keyed.
  - destruct (decide _); [|done]. unfold set_session, record, read.
    cbn [session].
    rewrite (Hown u (meta_key u)), (Hown u (progress_key u)),
      (Hown u (result_key u)); unfold owns; auto.
  - unfold set_session. cbn [session]. intros k Hk Hmk.
    apply lookup_union_is_Some in Hk as [Hk|Hk].
    + apply Hforeign in Hk. unfold is_meta_key in Hmk. by rewrite Hk in Hmk.
    + by apply (wf_keyed w Hwf).
Qed.

End listing_exact.

(** ** The counters against the registry *)

Section counters.
Import Json SQLiteSession Manager Observations.

Lemma tally_insert_fresh f (T : gmap string runner) u r :
  T !! u = None → tally f (<[u := r]> T) = f r + tally f T.
Proof.
  intros Hu. unfold tally. rewrite map_fold_insert_L; [done| |done].
  intros. lia.
Qed.

Lemma tally_replace f (T : gmap string runner) u r r' :
  T !! u = Some r → tally f (<[u := r']> T) + f r = f r' + tally f T.
Proof.
  intros Hu. rewrite <- (insert_delete_id T u r Hu) at 2.
  rewrite <- (insert_delete_eq T).
  rewrite !tally_insert_fresh by apply lookup_delete_eq. lia.
Qed.

(** A move of the thread of [u], with the counter it bumps, if any. *)
Lemma counters_move w w' u r r' (bumped : option string) :
  counters_tell w → TASKS w !! u = Some r →
  TASKS w' = <[u := r']> (TASKS w) →
  metrics w' = from_option Metrics.inc_counter id bumped (metrics w) →
  bumped ≠ Some "ops_started_total" →
  units_done r'
  = units_done r + (if decide (bumped = Some "ops_heartbeat_total") then 1 else 0) →
  has_finished r'
  = has_finished r + (if decide (bumped = Some "ops_finished_total") then 1 else 0) →
  has_returned r'
  = has_returned r + (if decide (bumped = Some "ops_cancelled_total") then 1 else 0) →
  counters_tell w'.
Proof.
  intros (H1 & H2 & H3 & H4) Hr HT Hm Hb Hu Hf Hret.
  assert (Hc : ∀ name, counter name w'
            = counter name w + (if decide (bumped = Some name) then 1 else 0)).
  { intros name. destruct bumped as [b|]; cbn in Hm.
    - rewrite (counter_inc b name w' _ Hm). fold (counter name w).
      destruct (decide (b = name)) as [->|Hne].
      + rewrite decide_True by done. lia.
      + rewrite decide_False by congruence. lia.
    - unfold counter. rewrite Hm. rewrite decide_False by done. lia. }
  pose proof (tally_replace units_done _ u r r' Hr).
  pose proof (tally_replace has_finished _ u r r' Hr).
  pose proof (tally_replace has_returned _ u r r' Hr).
  unfold counters_tell. rewrite !Hc, HT.
  rewrite map_size_insert_Some by (by eexists).
  rewrite (decide_False (P := bumped = Some "ops_started_total")) by done.
  split_and!; lia.
Qed.

(** The same for a step that leaves the registry alone. *)
Lemma counters_stay w w' (bumped : option string) :
  counters_tell w → TASKS w' = TASKS w →
  metrics w' = from_option Metrics.inc_counter id bumped (metrics w) →
  bumped ≠ Some "ops_started_total" →
  bumped ≠ Some "ops_heartbeat_total" →
  bumped ≠ Some "ops_finished_total" →
  bumped ≠ Some "ops_cancelled_total" →
  counters_tell w'.
Proof.
  intros (H1 & H2 & H3 & H4) HT Hm Hb1 Hb2 Hb3 Hb4.
  assert (Hc : ∀ name, bumped ≠ Some name → counter name w' = counter name w).
  { intros name Hne. destruct bumped as [b|]; cbn in Hm.
    - rewrite (counter_inc b name w' _ Hm). fold (counter name w).
      rewrite decide_False by congruence. done.
    - unfold counter. by rewrite Hm. }
  unfold counters_tell. rewrite !Hc, HT by done. done.
Qed.


Lemma counters_init : counters_tell init.
Proof. unfold counters_tell. by vm_compute. Qed.

Lemma counters_step a w w' :
  wf w → counters_tell w → step a w = Some w' → counters_tell w'.
Proof.
  intros Hwf Htell Hstep.
  destruct a as [dt|u d md|c u|n|u]; unfold step in Hstep.
  - destruct (0 <=? dt)%Z; [|done]. injection Hstep as <-.
    by apply (counters_stay w _ None).
  - destruct (uuid_shaped u); [|done].
    destruct (bool_decide (TASKS w !! u = None)) eqn:Hf; [|done].
    apply bool_decide_eq_true in Hf. lazy beta iota delta [andb] in Hstep.
    assert (w' = (start_operation u d md w).2) as -> by congruence.
    destruct Htell as (H1 & H2 & H3 & H4).
    unfold counters_tell. rewrite start_tasks.
    rewrite map_size_insert_None, !tally_insert_fresh by done.
    assert (Hm : metrics (start_operation u d md w).2
                 = Metrics.inc_counter "ops_started_total" (metrics w)) by done.
    rewrite !(counter_inc _ _ _ _ Hm).
    fold (counter "ops_started_total" w) (counter "ops_heartbeat_total" w)
      (counter "ops_finished_total" w) (counter "ops_cancelled_total" w).
    rewrite decide_True by done. rewrite !decide_False by done.
    rewrite H1, H2, H3, H4. done.
  - injection Hstep as <-. apply (counters_stay w _ None); try done.
    all: unfold enter; by destruct (negb _).
  - destruct (in_flight w !! n) as [cl|] eqn:Hn; [|done].
    injection Hstep as <-.
    assert (Hin : cl ∈ in_flight w) by (by eapply list_elem_of_lookup_2).
    destruct (wf_calls w Hwf cl Hin) as [_ (dm & Hdm & _)].
    destruct cl as [c u meta]. simpl in Hdm. subst meta.
    rewrite leave_dict.
    apply (counters_stay w _ (Some (control_counter c))); try done.
    all: by destruct c.
  - destruct (TASKS w !! u) as [r|] eqn:Hr; [|done].
    destruct (alive (r_at r)) eqn:Ha; [|done]. injection Hstep as <-.
    destruct (read_meta_started w u (PDict ∅) Hwf) as (d0 & Hread & _);
      [by eexists|].
    destruct (wf_runner w Hwf u r Hr) as (Hc & Hl & _).
    unfold counter_ok, locals_ok in *.
    destruct (r_at r) eqn:Hat; try done.
    + rewrite (run_at_boundary w u r d0) by done.
      eapply (counters_move w _ u r _ None); try done;
        unfold has_finished, has_returned, units_done; rewrite ?Hat;
        cbn [r_at r_i]; try lia; by destruct (py_eq_str _ _).
    + rewrite (run_paused w u r d0) by done.
      eapply (counters_move w _ u r _ None); try done;
        unfold has_finished, has_returned, units_done; rewrite ?Hat;
        cbn [r_at r_i]; try lia;
        destruct (py_eq_str _ "running"); try done;
        by destruct (py_eq_str _ _).
    + rewrite run_cancelling by done.
      eapply (counters_move w _ u r _ (Some "ops_cancelled_total")); try done;
        unfold has_finished, has_returned, units_done; rewrite ?Hat;
        cbn [r_at r_i]; try lia; done.
    + rewrite run_working by done.
      eapply (counters_move w _ u r _ (Some "ops_heartbeat_total")); try done;
        unfold has_finished, has_returned, units_done; rewrite ?Hat;
        cbn [r_at r_i].
      * rewrite decide_True by done. lia.
      * by destruct (_ <? _)%Z.
      * by destruct (_ <? _)%Z.
    + rewrite run_finishing by done.
      eapply (counters_move w _ u r _ None); try done;
        unfold has_finished, has_returned, units_done; rewrite ?Hat;
        cbn [r_at r_i]; try lia; done.
    + rewrite run_finalising by done.
      eapply (counters_move w _ u r _ None); try done;
        unfold has_finished, has_returned, units_done; rewrite ?Hat;
        cbn [r_at r_i]; try lia; done.
    + destruct Hl as (dm & -> & _). rewrite (run_marking w u r dm) by done.
      eapply (counters_move w _ u r _ (Some "ops_finished_total")); try done;
        unfold has_finished, has_returned, units_done; rewrite ?Hat;
        cbn [r_at r_i]; try lia; done.
Qed.

(** X8: in every reachable world the counters say what the registry says:
    [ops_started_total] is the number of operations started,
    [ops_heartbeat_total] the number of units of work done by all runners
    together, [ops_finished_total] the number of runners that came to the
    end of their function, and [ops_cancelled_total] the number that
    returned from the pause loop. *)
Theorem counters_match_registry (w : world) :
  reachable w →
  counter "ops_started_total" w = size (TASKS w)
  ∧ counter "ops_heartbeat_total" w = tally units_done (TASKS w)
  ∧ counter "ops_finished_total" w = tally has_finished (TASKS w)
  ∧ counter "ops_cancelled_total" w = tally has_returned (TASKS w).
Proof.
  intros [tr Htr]. change (counters_tell w).
  assert (H : ∀ w0, wf w0 → counters_tell w0 → exec tr w0 = Some w →
            counters_tell w).
  { clear Htr. induction tr as [|a tr IH]; intros w0 Hwf0 H0 Hex; simpl in Hex.
    - by injection Hex as <-.
    - destruct (step a w0) as [w1|] eqn:Hs; [|done].
      apply (IH w1); [by apply (wf_step a w0)|by apply (counters_step a w0)|done]. }
  apply (H init); [apply wf_init|apply counters_init|done].
Qed.

End counters.

(** ** Sequences of writes, and the two stores *)

Section store_calls.
Import Json SQLiteSession Calls.




Lemma load_native p : json_native (load p) = true.
Proof. destruct p as [j|text]; [apply json_loads_native|done]. Qed.

(** X10: what [read] returns is made of None, booleans, integers, strings,
    lists and dicts only, whatever the row holds; and writing back to a key
    the value read from it changes no value of the table. *)
Theorem write_back_what_was_read (t : gmap string row) (now : Z)
    (key : string) (default : pyval) :
  is_Some (t !! key) →
  json_native (read key default t) = true
  ∧ all (write now key (read key default t) t) = all t.
Proof.
  intros [r Hr]. unfold read. rewrite Hr. split; [apply load_native|].
  unfold all, write. rewrite fmap_insert. cbn [value load].
  rewrite json_loads_dumps by apply load_native.
  apply insert_id. by rewrite lookup_fmap, Hr.
Qed.



(** They part on the other values: a tuple comes back from the in-memory
    store as it went in, and from the SQLite store as a list. *)
Example stores_part_on_tuple :
  InMemorySession.read "k" PNone
    (InMemorySession.write "k" (PTuple [PInt 1]) ∅) = PTuple [PInt 1]
  ∧ read "k" PNone (write 0 "k" (PTuple [PInt 1]) ∅) = PList [PInt 1].
Proof. split; vm_compute; reflexivity. Qed.

End store_calls.

(** ** The summaries of the summarize tool *)

Section summaries.
Import Json Manager Agent.

Lemma lstrip_headok s : headok (lstrip s) = true.
Proof.
  induction s as [|c s IH]; [done|]. cbn [lstrip].
  destruct (isspace c) eqn:Hc; [done|]. cbn [headok]. by rewrite Hc.
Qed.

Lemma lstrip_id s : headok s = true → lstrip s = s.
Proof.
  destruct s as [|c s]; [done|]. cbn [headok lstrip].
  by destruct (isspace c).
Qed.

Lemma rstrip_lastok s : lastok (rstrip s) = true.
Proof.
  induction s as [|c s IH]; [done|]. cbn [rstrip].
  destruct (rstrip s) as [|c' rest] eqn:Hr.
  - destruct (isspace c) eqn:Hc; [done|]. cbn [lastok]. by rewrite Hc.
  - done.
Qed.

Lemma rstrip_id s : lastok s = true → rstrip s = s.
Proof.
  induction s as [|c s IH]; [done|]. cbn [rstrip lastok].
  destruct s as [|c' s'].
  - cbn [rstrip]. by destruct (isspace c).
  - intros H. by rewrite IH.
Qed.

Lemma rstrip_headok s : headok s = true → headok (rstrip s) = true.
Proof.
  destruct s as [|c s]; [done|]. cbn [headok rstrip]. intros Hc.
  destruct (rstrip s); [|exact Hc]. destruct (isspace c) eqn:Hs; [done|].
  cbn [headok]. by rewrite Hs.
Qed.

Lemma strip_id s : headok s = true → lastok s = true → strip s = s.
Proof. intros Hh Hl. unfold strip. rewrite lstrip_id by done. by apply rstrip_id. Qed.

Lemma strip_headok s : headok (strip s) = true.
Proof. apply rstrip_headok, lstrip_headok. Qed.

Lemma strip_lastok s : lastok (strip s) = true.
Proof. apply rstrip_lastok. Qed.

Lemma isspace_newline c : isspace c = false → Ascii.eqb c newline = false.
Proof.
  intros Hc. destruct (Ascii.eqb_spec c newline) as [->|]; [|done].
  by vm_compute in Hc.
Qed.

Lemma replace_headok s : headok (replace newline " " s) = headok s.
Proof.
  destruct s as [|c s]; [done|]. cbn [replace headok].
  destruct (Ascii.eqb_spec c newline) as [->|]; [|done]. by vm_compute.
Qed.

Lemma replace_lastok s : lastok (replace newline " " s) = lastok s.
Proof.
  induction s as [|c s IH]; [done|]. cbn [replace lastok].
  destruct s as [|c' s'].
  - cbn [replace]. destruct (Ascii.eqb_spec c newline) as [->|]; [|done].
    by vm_compute.
  - cbn [replace] in *. apply IH.
Qed.

Lemma length_replace old new s :
  String.length (replace old new s) = String.length s.
Proof. induction s as [|c s IH]; [done|]. cbn [replace String.length]. by rewrite IH. Qed.

Lemma count_replace s : count newline (replace newline " " s) = 0.
Proof.
  induction s as [|c s IH]; [done|]. cbn [replace count]. rewrite IH.
  destruct (Ascii.eqb_spec c newline) as [->|Hne]; [done|].
  by destruct (Ascii.eqb_spec c newline).
Qed.

Lemma replace_id s : count newline s = 0 → replace newline " " s = s.
Proof.
  induction s as [|c s IH]; [done|]. cbn [replace count].
  destruct (Ascii.eqb c newline); [done|]. intros H. by rewrite IH.
Qed.

Lemma length_take n s :
  n ≤ String.length s → String.length (substring 0 n s) = n.
Proof.
  revert s. induction n as [|n IH]; intros [|c s] Hn; simpl in *;
    try done; try lia. rewrite IH; [done|lia].
Qed.

Lemma length_append s1 s2 :
  String.length (s1 +:+ s2) = String.length s1 + String.length s2.
Proof. induction s1 as [|c s1 IH]; [done|]. simpl. by rewrite IH. Qed.

Lemma count_take c n s : count c s = 0 → count c (substring 0 n s) = 0.
Proof.
  revert s. induction n as [|n IH]; intros [|a s] H; simpl in *; try done.
  destruct (Ascii.eqb a c); [done|]. by apply IH.
Qed.

Lemma count_append c s1 s2 : count c (s1 +:+ s2) = count c s1 + count c s2.
Proof.
  induction s1 as [|a s1 IH]; [done|]. simpl. rewrite IH. lia.
Qed.

Lemma headok_take n s s2 :
  0 < n → s ≠ "" → headok (substring 0 n s +:+ s2) = headok s.
Proof. intros Hn Hs. destruct s as [|c s]; [done|]. by destruct n; [lia|]. Qed.

Lemma lastok_append s1 s2 : s2 ≠ "" → lastok (s1 +:+ s2) = lastok s2.
Proof.
  intros Hs2. induction s1 as [|c s1 IH]; [done|].
  change (String c s1 +:+ s2) with (String c (s1 +:+ s2)). cbn [lastok].
  destruct (s1 +:+ s2) eqn:Happ; [|done].
  destruct s1; [|done]. simpl in Happ. by subst.
Qed.

(** The summary before it is put into the answer. *)
Lemma summary_shape text :
  text ≠ "" →
  ∃ s, summarize_incident text = {[ "status" := PStr "ok"; "summary" := PStr s ]}
       ∧ String.length s ≤ 280 ∧ count newline s = 0
       ∧ headok s = true ∧ lastok s = true
       ∧ (String.length (strip text) ≤ 280 →
          s = replace newline " " (strip text))
       ∧ (280 < String.length (strip text) →
          s = substring 0 277 (replace newline " " (strip text)) +:+ "...").
Proof.
  intros Htext. unfold summarize_incident. cbn [truthy].
  destruct (String.eqb_spec text "") as [|_]; [done|]. cbn [negb].
  set (x := replace newline " " (strip text)).
  assert (Hlen : String.length x = String.length (strip text))
    by apply length_replace.
  assert (Hx0 : count newline x = 0) by apply count_replace.
  assert (Hxh : headok x = true)
    by (unfold x; rewrite replace_headok; apply strip_headok).
  assert (Hxl : lastok x = true)
    by (unfold x; rewrite replace_lastok; apply strip_lastok).
  destruct (Nat.ltb_spec 280 (String.length x)) as [Hlong|Hshort].
  - eexists. split; [done|]. split_and!.
    + rewrite length_append, length_take by lia. simpl. lia.
    + rewrite count_append, count_take by done. done.
    + rewrite headok_take; [done|lia|]. intros Hx. rewrite Hx in Hlong.
      simpl in Hlong. lia.
    + by rewrite lastok_append.
    + lia.
    + done.
  - eexists. split; [done|]. split_and!; try done. lia.
Qed.

(** X12: the answer of [summarize_incident] is an error for the empty text
    and for no other; otherwise it is ok with a summary of at most 280
    characters, without line feed, that does not begin or end with white
    space. A text whose stripped form has more than 280 characters is cut:
    the summary is 277 characters followed by three dots, 280 in all. *)
Theorem summary_is_short (text : string) :
  ∃ st s,
    summarize_incident text = {[ "status" := PStr st; "summary" := PStr s ]}
    ∧ (st = "error" ∧ text = "" ∧ s = "" ∨ st = "ok" ∧ text ≠ "")
    ∧ String.length s ≤ 280
    ∧ count newline s = 0
    ∧ headok s = true ∧ lastok s = true
    ∧ (280 < String.length (strip text) →
       String.length s = 280 ∧ endswith "..." s = true).
Proof.
  destruct (String.eqb_spec text "") as [->|Hne].
  - exists "error", "". split; [done|]. split_and!; try done; try by left.
    + simpl. lia.
    + simpl. lia.
  - destruct (summary_shape text Hne) as (s & Hs & Hlen & Hc & Hh & Hl & _ & Hcut).
    exists "ok", s. split_and!; try done; try by right.
    intros Hlong. rewrite (Hcut Hlong). split.
    + rewrite length_append, length_take; [done|].
      rewrite length_replace. lia.
    + apply endswith_app.
Qed.

(** X13: a summary is its own summary: handed back to [summarize_incident],
    a summary that is not empty comes out as it went in. *)
Theorem summary_of_summary (text s : string) :
  summarize_incident text !! "summary" = Some (PStr s) → s ≠ "" →
  summarize_incident s = {[ "status" := PStr "ok"; "summary" := PStr s ]}.
Proof.
  intros Hs Hne.
  assert (Htext : text ≠ "") by (intros ->; vm_compute in Hs; congruence).
  destruct (summary_shape text Htext) as (s0 & Heq & Hlen & Hc & Hh & Hl & _).
  rewrite Heq in Hs. rewrite lookup_insert_ne, lookup_singleton_eq in Hs by done.
  assert (s0 = s) as -> by congruence.
  destruct (summary_shape s Hne) as (s1 & -> & _ & _ & _ & _ & Hshort & _).
  rewrite Hshort by (by rewrite strip_id).
  by rewrite strip_id, replace_id.
Qed.

(** X14: a text of white space only is not an error: the answer is ok, with
    an empty summary. *)
Theorem blank_text_is_ok (text : string) :
  text ≠ "" → lstrip text = "" →
  summarize_incident text = {[ "status" := PStr "ok"; "summary" := PStr "" ]}.
Proof.
  intros Hne Hblank.
  destruct (summary_shape text Hne) as (s & -> & _ & _ & _ & _ & Hshort & _).
  unfold strip in Hshort. rewrite Hblank in Hshort. simpl in Hshort.
  rewrite Hshort; [done|lia].
Qed.

End summaries.

(** ** Concrete runs of the further properties *)

Section witnesses.
Import Json SQLiteSession Manager Observations Calls Agent.

Lemma held_reachable : reachable held_world.
Proof. apply reachable_from; [apply reachable_init|run_trace]. Qed.

Lemma held_cancelled_reachable : reachable held_cancelled_world.
Proof. apply reachable_from; [apply held_reachable|run_trace]. Qed.

Lemma runner_completes_witness :
  reachable started_world
  ∧ TASKS started_world !! demo_id = Some (Runner 8 0 PNone AtBoundary)
  ∧ status demo_id started_world ≠ Some (PStr "paused")
  ∧ ∃ w',
      exec (repeat (Run demo_id) 19) started_world = Some w'
      ∧ step (Run demo_id) w' = None
      ∧ progress demo_id w' = Some (8, 8)%Z
      ∧ record (result_key demo_id) w'
        = Some (PDict {[ "status" := PStr "finished";
                         "completed_at" := PInt 1700000000 ]})
      ∧ status demo_id w' = Some (PStr "finished")
      ∧ counter "ops_heartbeat_total" w' = 8
      ∧ counter "ops_finished_total" w' = 1.
Proof.
  assert (H2 : TASKS started_world !! demo_id
               = Some (Runner 8 0 PNone AtBoundary))
    by (vm_compute; reflexivity).
  assert (H3 : status demo_id started_world ≠ Some (PStr "paused"))
    by (vm_compute; discriminate).
  split; [exact started_reachable|]. split; [exact H2|]. split; [exact H3|].
  destruct (runner_completes started_world demo_id
              (Runner 8 0 PNone AtBoundary) started_reachable H2
              (or_introl (conj eq_refl H3)))
    as (w' & Hex & _ & Hstop & Hp & Hres & Hst & _ & Hhb & Hfin & _).
  exists w'. repeat apply conj; try assumption.
Defined.

Lemma paused_runner_waits_witness :
  reachable held_world
  ∧ TASKS held_world !! demo_id = Some (Runner 2 0 PNone AtBoundary)
  ∧ status demo_id held_world = Some (PStr "paused")
  ∧ ∃ w' st,
      exec (repeat (Run demo_id) 3) held_world = Some w'
      ∧ TASKS w' = <[demo_id := Runner 2 0 st Paused]> (TASKS held_world)
      ∧ session w' = session held_world ∧ metrics w' = metrics held_world
      ∧ clock w' = clock held_world ∧ in_flight w' = in_flight held_world.
Proof.
  assert (H2 : TASKS held_world !! demo_id
               = Some (Runner 2 0 PNone AtBoundary))
    by (vm_compute; reflexivity).
  assert (H3 : status demo_id held_world = Some (PStr "paused"))
    by (vm_compute; reflexivity).
  split; [exact held_reachable|]. split; [exact H2|]. split; [exact H3|].
  exact (paused_runner_waits held_world demo_id (Runner 2 0 PNone AtBoundary)
           2 held_reachable H2 (or_introl eq_refl) H3).
Defined.

Lemma cancel_while_paused_witness :
  reachable held_cancelled_world
  ∧ TASKS held_cancelled_world !! demo_id
    = Some held_runner
  ∧ status demo_id held_cancelled_world = Some (PStr "cancelled")
  ∧ ∃ w',
      exec [Run demo_id; Run demo_id] held_cancelled_world = Some w'
      ∧ (r_at <$> TASKS w' !! demo_id) = Some Returned
      ∧ step (Run demo_id) w' = None
      ∧ record (result_key demo_id) w'
        = Some (PDict {[ "status" := PStr "cancelled" ]})
      ∧ progress demo_id w' = progress demo_id held_cancelled_world
      ∧ status demo_id w' = Some (PStr "cancelled")
      ∧ counter "ops_cancelled_total" w'
        = counter "ops_cancelled_total" held_cancelled_world + 1
      ∧ counter "ops_heartbeat_total" w'
        = counter "ops_heartbeat_total" held_cancelled_world
      ∧ (∀ k, k ≠ result_key demo_id →
           session w' !! k = session held_cancelled_world !! k).
Proof.
  assert (H2 : TASKS held_cancelled_world !! demo_id
               = Some held_runner)
    by (vm_compute; reflexivity).
  assert (H3 : status demo_id held_cancelled_world = Some (PStr "cancelled"))
    by (vm_compute; reflexivity).
  split; [exact held_cancelled_reachable|]. split; [exact H2|].
  split; [exact H3|].
  exact (cancel_while_paused held_cancelled_world demo_id
           held_runner held_cancelled_reachable H2
           eq_refl H3).
Defined.

Lemma manager_never_raises_witness :
  reachable demo_world
  ∧ (∀ u r e, TASKS demo_world !! u = Some r → r_at r ≠ Crashed e)
  ∧ (∀ u r, TASKS demo_world !! u = Some r →
       ∃ r' w', _simulate_task u r demo_world = (inr r', w'))
  ∧ (∀ cl, cl ∈ in_flight demo_world → ∃ w', leave cl demo_world = (inr true, w'))
  ∧ (∀ c u, ∃ b w', control_operation c u demo_world = (inr b, w')).
Proof.
  split; [exact demo_reachable|].
  exact (manager_never_raises demo_world demo_reachable).
Defined.

Lemma metadata_fields_fixed_witness :
  reachable started_world
  ∧ exec [Enter Pause demo_id; Leave 0; Run demo_id] started_world
    = Some demo_paused_world
  ∧ is_Some (TASKS started_world !! demo_id)
  ∧ field (meta_key demo_id) "demo" demo_paused_world
    = field (meta_key demo_id) "demo" started_world
  ∧ is_Some (status demo_id demo_paused_world)
  ∧ is_Some (progress demo_id demo_paused_world).
Proof.
  assert (H2 : exec [Enter Pause demo_id; Leave 0; Run demo_id] started_world
               = Some demo_paused_world)
    by (apply exec_default; vm_compute; reflexivity).
  assert (H3 : is_Some (TASKS started_world !! demo_id))
    by (exists (Runner 8 0 PNone AtBoundary); vm_compute; reflexivity).
  split; [exact started_reachable|]. split; [exact H2|]. split; [exact H3|].
  apply (metadata_fields_fixed _ started_world demo_paused_world demo_id
           "demo" started_reachable H2 H3).
  discriminate.
Defined.

Lemma list_operations_exact_witness :
  reachable demo_world
  ∧ (TASKS demo_world !! "no-such-id" = None →
     list_operations demo_world !! "no-such-id" = None)
  ∧ (is_Some (TASKS demo_world !! demo_id) →
     ∃ meta progress,
       record (meta_key demo_id) demo_world = Some meta
       ∧ record (progress_key demo_id) demo_world = Some progress
       ∧ list_operations demo_world !! demo_id
         = Some {[ "result" :=
                     default PNone (record (result_key demo_id) demo_world);
                   "progress" := progress;
                   "meta" := meta ]}).
Proof.
  split; [exact demo_reachable|]. split.
  - exact (proj1 (list_operations_exact demo_world "no-such-id" demo_reachable)).
  - exact (proj2 (list_operations_exact demo_world demo_id demo_reachable)).
Defined.

Lemma list_operations_ignores_foreign_witness :
  reachable demo_world
  ∧ (∀ k, is_Some (worker_rows !! k) → startswith "op:" k = false)
  ∧ list_operations (set_session (λ t, worker_rows ∪ t) demo_world)
    = list_operations demo_world.
Proof.
  assert (H2 : ∀ k, is_Some (worker_rows !! k) → startswith "op:" k = false).
  { intros k [x Hk]. unfold worker_rows in Hk.
    apply lookup_singleton_Some in Hk as [<- _]. reflexivity. }
  split; [exact demo_reachable|]. split; [exact H2|].
  exact (list_operations_ignores_foreign demo_world worker_rows
           demo_reachable H2).
Defined.

Lemma counters_match_registry_witness :
  reachable demo_world
  ∧ counter "ops_started_total" demo_world = size (TASKS demo_world)
  ∧ counter "ops_heartbeat_total" demo_world
    = tally units_done (TASKS demo_world)
  ∧ counter "ops_finished_total" demo_world
    = tally has_finished (TASKS demo_world)
  ∧ counter "ops_cancelled_total" demo_world
    = tally has_returned (TASKS demo_world).
Proof.
  split; [exact demo_reachable|].
  exact (counters_match_registry demo_world demo_reachable).
Defined.

Lemma write_back_what_was_read_witness :
  let t : gmap string row :=
    <["k" := Row (Malformed "{oops") 0]> (write 1 "j" (PTuple [PInt 1]) ∅) in
  is_Some (t !! "k")
  ∧ json_native (read "k" PNone t) = true
  ∧ all (write 2 "k" (read "k" PNone t) t) = all t.
Proof.
  intros t.
  assert (H1 : is_Some (t !! "k"))
    by (exists (Row (Malformed "{oops") 0); apply lookup_insert_eq).
  split; [exact H1|].
  exact (write_back_what_was_read t 2 "k" PNone H1).
Defined.


Lemma summary_of_summary_witness :
  summarize_incident incident_text !! "summary"
    = Some (PStr "disk full on db-1")
  ∧ "disk full on db-1" ≠ ""
  ∧ summarize_incident "disk full on db-1"
    = {[ "status" := PStr "ok"; "summary" := PStr "disk full on db-1" ]}.
Proof.
  assert (H1 : summarize_incident incident_text !! "summary"
               = Some (PStr "disk full on db-1"))
    by (vm_compute; reflexivity).
  assert (H2 : "disk full on db-1" ≠ "") by discriminate.
  split; [exact H1|]. split; [exact H2|].
  exact (summary_of_summary incident_text "disk full on db-1" H1 H2).
Defined.

Lemma blank_text_is_ok_witness :
  String newline " " ≠ ""
  ∧ lstrip (String newline " ") = ""
  ∧ summarize_incident (String newline " ")
    = {[ "status" := PStr "ok"; "summary" := PStr "" ]}.
Proof.
  assert (H1 : String newline " " ≠ "") by discriminate.
  assert (H2 : lstrip (String newline " ") = "") by reflexivity.
  split; [exact H1|]. split; [exact H2|].
  exact (blank_text_is_ok (String newline " ") H1 H2).
Defined.

End witnesses.
